(** * melonDS DS software renderer: screen compositor and cursor overlay

    A shallow embedding of [src/libretro/render/software.cpp]
    (the [SoftwareRenderState] member functions [Render], [CopyScreen],
    [DrawCursor] and [CombineScreens]) and of the cursor part of the
    fragment shader [src/libretro/glsl/melondsds.frag], followed by the
    properties of the specification that were checked against them.

    Conventions.
    - A C++ [int] is a [Z]. Signed overflow is undefined in C++, so there
      is no wrap-around to write out; [in_int] is the range in which the
      [Z] reading coincides with the machine one.
    - [a / b] and [a % b] on [int] truncate towards zero: [Z.quot], [Z.rem].
    - [unsigned] arithmetic and the [int]/[unsigned] conversions wrap
      modulo [2^32]: [Int.to_u32], [Int.to_i32].
    - A pixel is a 32-bit ARGB word, a [Z] in [0, 2^32).
    - A pointer to pixel data is read together with its row width, as a
      2-D image [Z -> Z -> pixel] (column, then row).
    - The shader's [float]s are read over [Q]: every finite float is a
      rational, and comparing two of them involves no rounding. The
      arithmetic that derives the bucket is read exactly (no rounding);
      nothing proved below depends on its value. *)

From Stdlib Require Import ZArith List Bool Lia QArith Qround FinFun.
Import ListNotations.

Local Open Scope Z_scope.

(** ** Machine integers *)

Module Int.

Definition int_min : Z := - 2 ^ 31.
Definition int_max : Z := 2 ^ 31 - 1.

Definition in_int (z : Z) : Prop := int_min <= z <= int_max.

(** [std::max], [std::min] and [std::abs] on [int]. *)
Definition max (a b : Z) : Z := if a <? b then b else a.
Definition min (a b : Z) : Z := if b <? a then b else a.
Definition abs (a : Z) : Z := if a <? 0 then - a else a.

(** [glm::clamp(x, lo, hi)] is [min(max(x, lo), hi)], per component. *)
Definition clamp (x lo hi : Z) : Z := min (max x lo) hi.

(** Conversions between [int] and [unsigned], and the wrap-around of
    [unsigned] arithmetic, both modulo [2^32]. *)
Definition to_u32 (z : Z) : Z := z mod 2 ^ 32.
Definition to_i32 (z : Z) : Z := (z + 2 ^ 31) mod 2 ^ 32 - 2 ^ 31.

End Int.

(** ** The cursor pattern, CPU form ([DrawCursor], the loop body) *)

(** What the overlay does to one destination pixel. *)
Inductive CellClass : Type :=
| WhiteFill
| BlackRing
| Untouched.

Definition CellClass_eqb (a b : CellClass) : bool :=
  match a, b with
  | WhiteFill, WhiteFill | BlackRing, BlackRing | Untouched, Untouched => true
  | _, _ => false
  end.

Module Cpu.

(** The lambda [floor_div] of [DrawCursor]:
    [int q = a / b, r = a % b; return (r && (a < 0)) ? (q - 1) : q;] *)
Definition floor_div (a b : Z) : Z :=
  let q := Z.quot a b in
  let r := Z.rem a b in
  if negb (r =? 0) && (a <? 0) then q - 1 else q.

(** The three booleans computed for a base cell [(bx, by)]. *)
Definition inWhite3x3 (bx by_ : Z) : bool :=
  (Int.abs bx <=? 1) && (Int.abs by_ <=? 1).

Definition isCorner (bx by_ : Z) : bool :=
  (Int.abs bx =? 2) && (Int.abs by_ =? 2).

Definition inRing (bx by_ : Z) : bool :=
  negb (isCorner bx by_) &&
  (((Int.abs by_ =? 2) && (Int.abs bx <=? 1)) ||
   ((Int.abs bx =? 2) && (Int.abs by_ <=? 1))).

(** [if (inWhite3x3) white else if (inRing) black], else nothing. *)
Definition classify (bx by_ : Z) : CellClass :=
  if inWhite3x3 bx by_ then WhiteFill
  else if inRing bx by_ then BlackRing
  else Untouched.

End Cpu.

(** ** The cursor pattern, fragment form (the shader's [main]) *)

Module Frag.

(** Lines 42-56 of the shader, over the bucket [(bx, by)]. *)
Definition inWhite3x3 (bx by_ : Z) : bool :=
  let dx := bx - 2 in
  let dy := by_ - 2 in
  (Int.abs dx <=? 1) && (Int.abs dy <=? 1).

Definition onOuterRow (by_ : Z) : bool := (by_ =? 0) || (by_ =? 4).
Definition onOuterCol (bx : Z) : bool := (bx =? 0) || (bx =? 4).

Definition isCorner (bx by_ : Z) : bool := onOuterRow by_ && onOuterCol bx.

Definition inRing (bx by_ : Z) : bool :=
  let dx := bx - 2 in
  let dy := by_ - 2 in
  negb (isCorner bx by_) &&
  ((onOuterRow by_ && (Int.abs dx <=? 1)) ||
   (onOuterCol bx && (Int.abs dy <=? 1))).

Definition classify (bx by_ : Z) : CellClass :=
  if inWhite3x3 bx by_ then WhiteFill
  else if inRing bx by_ then BlackRing
  else Untouched.

End Frag.


(** ** Vectors, pixels and the emulated screens *)

Definition ivec2 : Type := (Z * Z)%type.
Definition uvec2 : Type := (Z * Z)%type.

Definition vec_add (a b : ivec2) : ivec2 := (fst a + fst b, snd a + snd b).
Definition vec_sub (a b : ivec2) : ivec2 := (fst a - fst b, snd a - snd b).

Definition vec_clamp (v lo hi : ivec2) : ivec2 :=
  (Int.clamp (fst v) (fst lo) (fst hi), Int.clamp (snd v) (snd lo) (snd hi)).

(** [uvec2(v)] of an [ivec2], [ivec2(v)] of a [uvec2], and [v * k] on
    [uvec2]. *)
Definition to_uvec2 (v : ivec2) : uvec2 := (Int.to_u32 (fst v), Int.to_u32 (snd v)).
Definition to_ivec2 (v : uvec2) : ivec2 := (Int.to_i32 (fst v), Int.to_i32 (snd v)).
Definition uvec_scale (v : uvec2) (k : Z) : uvec2 :=
  (Int.to_u32 (fst v * k), Int.to_u32 (snd v * k)).

Definition pixel : Type := Z.

Definition white : pixel := 0xFFFFFFFF.
Definition black : pixel := 0xFF000000.

(** melonDS's screen constants ([NDS.h]). *)
Definition NDS_SCREEN_WIDTH : Z := 256.
Definition NDS_SCREEN_HEIGHT : Z := 192.
Definition NDS_SCREEN_SIZE : uvec2 := (NDS_SCREEN_WIDTH, NDS_SCREEN_HEIGHT).

(** A [span<const uint32_t, NDS_SCREEN_AREA>]: the pixels of one emulated
    screen, row after row. *)
Definition SourceImage : Type := list pixel.

Definition Image : Type := Z -> Z -> pixel.

Definition span_image (s : SourceImage) : Image :=
  fun i j => nth (Z.to_nat (j * NDS_SCREEN_WIDTH + i)) s 0.

Inductive Screen : Type :=
| TopScreen
| BottomScreen.

(** ** Layouts ([screenlayout.hpp], not among the source files) *)

(** Modelled from the spec: the enumeration [ScreenLayout] is declared in
    [screenlayout.hpp]. The source names [TopOnly], [BottomOnly], the four
    hybrid and the four large-screen variants; [TopBottom] and its
    flipped and mirrored siblings come from the spec's list. *)
Inductive ScreenLayout : Type :=
| TopBottom
| BottomTop
| LeftRight
| RightLeft
| TopOnly
| BottomOnly
| HybridTop
| HybridBottom
| FlippedHybridTop
| FlippedHybridBottom
| LargescreenTop
| LargescreenBottom
| FlippedLargescreenTop
| FlippedLargescreenBottom.

Definition layout_tag (l : ScreenLayout) : Z :=
  match l with
  | TopBottom => 0 | BottomTop => 1 | LeftRight => 2 | RightLeft => 3
  | TopOnly => 4 | BottomOnly => 5
  | HybridTop => 6 | HybridBottom => 7
  | FlippedHybridTop => 8 | FlippedHybridBottom => 9
  | LargescreenTop => 10 | LargescreenBottom => 11
  | FlippedLargescreenTop => 12 | FlippedLargescreenBottom => 13
  end.

(** [a == b] on layouts. *)
Definition layout_eqb (a b : ScreenLayout) : bool := layout_tag a =? layout_tag b.

(** Modelled from the spec: [IsHybridLayout] is true of [HybridTop],
    [HybridBottom] and their flipped variants. *)
Definition IsHybridLayout (l : ScreenLayout) : bool :=
  match l with
  | HybridTop | HybridBottom | FlippedHybridTop | FlippedHybridBottom => true
  | _ => false
  end.

(** Modelled from the spec: [IsLargeScreenLayout] is true of
    [LargescreenTop], [LargescreenBottom] and their flipped variants. *)
Definition IsLargeScreenLayout (l : ScreenLayout) : bool :=
  match l with
  | LargescreenTop | LargescreenBottom
  | FlippedLargescreenTop | FlippedLargescreenBottom => true
  | _ => false
  end.

(** Modelled from the spec: [LayoutSupportsDirectCopy] holds when a
    screen fills the buffer's full row width at its vertical band, that
    is in the stacked and the one-screen layouts; side-by-side and
    magnified layouts copy row by row. *)
Definition LayoutSupportsDirectCopy (l : ScreenLayout) : bool :=
  match l with
  | TopBottom | BottomTop | TopOnly | BottomOnly => true
  | _ => false
  end.

(** Modelled from the spec: [HybridSideScreenDisplay] is [Both] or
    [FocusedOnly]. *)
Inductive HybridSideScreenDisplay : Type :=
| Both
| FocusedOnly.

Definition side_eqb (a b : HybridSideScreenDisplay) : bool :=
  match a, b with
  | Both, Both | FocusedOnly, FocusedOnly => true
  | _, _ => false
  end.

(** Modelled from the spec: [ScreenLayoutData], the geometry computed
    once per layout change; one field per accessor the renderer calls.
    [GetBottomScreenMatrix] is a float [mat3]; its field here is the map
    it induces on integer points, [ivec2(M * vec3(p, 1))]. *)
Record ScreenLayoutData : Type := {
  Layout : ScreenLayout;
  BufferSize : uvec2;
  HybridRatio : Z;
  HybridSmallScreenLayout : HybridSideScreenDisplay;
  GetTopScreenTranslation : uvec2;
  GetBottomScreenTranslation : uvec2;
  GetHybridScreenTranslation : uvec2;
  GetBottomScreenMatrix : ivec2 -> ivec2
}.

(** ** Collaborators: pixel buffer, scaler, input, configuration *)

Inductive ScreenFilter : Type :=
| Nearest
| Linear.

Inductive ScalerType : Type :=
| SCALER_TYPE_POINT
| SCALER_TYPE_BILINEAR.

(** What the renderer reads of [InputState], [CoreConfig] and [NDS]. *)
Record InputState : Type := {
  TouchPosition : ivec2;
  CursorVisible : bool
}.

Record CoreConfig : Type := {
  CursorSize : Z;
  GetScreenFilter : ScreenFilter
}.

Record NDS : Type := {
  FrontTop : SourceImage;
  FrontBottom : SourceImage;
  IsLidClosed : bool
}.

(** What is fixed outside the two source files: the value [Clear] stores,
    the resampler of libretro-common behind [hybridScaler.Scale], the row
    stride the buffer reports for a size, and whether the build has Tracy
    and a profiler is attached. *)
Class Platform : Type := {
  clear_value : pixel;
  scaler_scale : ScalerType -> uvec2 -> Image -> Image;
  row_stride : uvec2 -> Z;
  HAVE_TRACY : bool;
  ProfilerAvailable : bool
}.

(** Modelled from the spec: [PixelBuffer], the owned pixel surface of
    logical size [Size]; [px b x y] is the pixel in column [x] of row
    [y]. *)
Record PixelBuffer : Type := {
  Size : uvec2;
  px : Image
}.

Definition Width (b : PixelBuffer) : Z := fst (Size b).
Definition Height (b : PixelBuffer) : Z := snd (Size b).

Definition in_rect (origin size : uvec2) (x y : Z) : bool :=
  (fst origin <=? x) && (x <? fst origin + fst size) &&
  (snd origin <=? y) && (y <? snd origin + snd size).

Module Buffer.

(** Modelled from the spec: [SetSize] gives the surface the required
    size; what it then holds is whatever was there. *)
Definition SetSize (sz : uvec2) (b : PixelBuffer) : PixelBuffer :=
  {| Size := sz; px := px b |}.

(** Modelled from the spec: [Clear] sets every pixel to the clear
    value. *)
Definition Clear `{Platform} (b : PixelBuffer) : PixelBuffer :=
  {| Size := Size b; px := fun _ _ => clear_value |}.

(** Modelled from the spec: [CopyRows] copies the [size] rectangle of
    the source, row by row, to the rectangle at [translation]. *)
Definition CopyRows (src : Image) (translation size : uvec2)
  (b : PixelBuffer) : PixelBuffer :=
  {| Size := Size b;
     px := fun x y =>
             if in_rect translation size x y
             then src (x - fst translation) (y - snd translation)
             else px b x y |}.

(** Modelled from the spec: [CopyDirect] copies one full screen to the
    rectangle at [translation], in one piece. *)
Definition CopyDirect (src : Image) (translation : uvec2)
  (b : PixelBuffer) : PixelBuffer :=
  CopyRows src translation NDS_SCREEN_SIZE b.

(** [buffer[uvec2(x, y)] = c]. An index outside the surface is
    undefined behaviour: [None]. *)
Definition put (pos : uvec2) (c : pixel) (b : PixelBuffer) : option PixelBuffer :=
  if (fst pos <? Width b) && (snd pos <? Height b)
  then Some {| Size := Size b;
               px := fun x y =>
                       if (x =? fst pos) && (y =? snd pos) then c else px b x y |}
  else None.

End Buffer.

(** The scaler's mutable state: filter and output size. *)
Record Scaler : Type := {
  scaler_type : ScalerType;
  out_size : uvec2
}.

Record SoftwareRenderState : Type := {
  buffer : PixelBuffer;
  hybridBuffer : PixelBuffer;
  hybridScaler : Scaler
}.

Definition with_buffer (b : PixelBuffer) (st : SoftwareRenderState) : SoftwareRenderState :=
  {| buffer := b; hybridBuffer := hybridBuffer st; hybridScaler := hybridScaler st |}.

Definition with_hybridBuffer (b : PixelBuffer) (st : SoftwareRenderState) : SoftwareRenderState :=
  {| buffer := buffer st; hybridBuffer := b; hybridScaler := hybridScaler st |}.

Definition with_hybridScaler (s : Scaler) (st : SoftwareRenderState) : SoftwareRenderState :=
  {| buffer := buffer st; hybridBuffer := hybridBuffer st; hybridScaler := s |}.

(** ** [DrawCursor] *)

(** One call [set_px(x, y, c)]. *)
Definition PxWrite : Type := (Z * Z * pixel)%type.

Definition write_pos (w : PxWrite) : Z * Z := fst w.
Definition write_color (w : PxWrite) : pixel := snd w.

(** The values [lo, lo + 1, ..., hi] a [for (i = lo; i <= hi; ++i)] loop
    runs through; none when [hi < lo]. *)
Definition Zrange (lo hi : Z) : list Z :=
  map (fun i => lo + Z.of_nat i) (seq 0 (Z.to_nat (hi - lo + 1))).

Module Cursor.

(** The body of the inner loop, at destination pixel [(x, y)]. *)
Definition cell (cx cy scale x y : Z) : list PxWrite :=
  let bx := Cpu.floor_div (x - cx) scale in
  let by_ := Cpu.floor_div (y - cy) scale in
  match Cpu.classify bx by_ with
  | WhiteFill => [(x, y, white)]
  | BlackRing => [(x, y, black)]
  | Untouched => []
  end.

(** Lines 167-209: the clipped bounds and the two loops. The loops read
    no pixel, so what they do is the sequence of [set_px] calls. *)
Definition writes (W H cx cy scale : Z) : list PxWrite :=
  let sx := Int.max 0 (cx - 2 * scale) in
  let sy := Int.max 0 (cy - 2 * scale) in
  let ex := Int.min (W - 1) (cx + 2 * scale + (scale - 1)) in
  let ey := Int.min (H - 1) (cy + 2 * scale + (scale - 1)) in
  flat_map (fun y => flat_map (fun x => cell cx cy scale x y) (Zrange sx ex))
           (Zrange sy ey).

(** Lines 150-156: the scale. *)
Definition scale (screenLayout : ScreenLayoutData) : Z :=
  if layout_eqb (Layout screenLayout) LargescreenBottom ||
     layout_eqb (Layout screenLayout) FlippedLargescreenBottom
  then HybridRatio screenLayout
  else 1.

(** Lines 144-158: the centre of the pattern. *)
Definition center (input : InputState) (config : CoreConfig)
  (screenLayout : ScreenLayoutData) (size : uvec2) : Z * Z :=
  let cursorSize : ivec2 := (CursorSize config, CursorSize config) in
  let clampedTouch :=
    vec_clamp (TouchPosition input) (0, 0)
              (NDS_SCREEN_WIDTH - 1, NDS_SCREEN_HEIGHT - 1) in
  let transformedTouch := GetBottomScreenMatrix screenLayout clampedTouch in
  let start :=
    to_uvec2 (vec_clamp (vec_sub transformedTouch cursorSize) (0, 0) (to_ivec2 size)) in
  let end_ :=
    to_uvec2 (vec_clamp (vec_add transformedTouch cursorSize) (0, 0) (to_ivec2 size)) in
  let centerX := Int.to_i32 (Int.to_u32 (fst start + fst end_) / 2) in
  let centerY := Int.to_i32 (Int.to_u32 (snd start + snd end_) / 2) in
  (centerX, centerY).

(** [set_px]: [buffer[uvec2(x, y)] = c]. *)
Definition set_px (w : PxWrite) (b : PixelBuffer) : option PixelBuffer :=
  let '(x, y, c) := w in
  Buffer.put (to_uvec2 (x, y)) c b.

Fixpoint run (ws : list PxWrite) (b : PixelBuffer) : option PixelBuffer :=
  match ws with
  | [] => Some b
  | w :: ws' =>
      match set_px w b with
      | Some b' => run ws' b'
      | None => None
      end
  end.

End Cursor.

(** The [set_px] calls of [DrawCursor] on a buffer of size [size]. *)
Definition DrawCursor_writes (input : InputState) (config : CoreConfig)
  (screenLayout : ScreenLayoutData) (size : uvec2) : list PxWrite :=
  if layout_eqb (Layout screenLayout) TopOnly then []
  else
    let scale := Cursor.scale screenLayout in
    let '(cx, cy) := Cursor.center input config screenLayout size in
    let W := Int.to_i32 (fst size) in
    let H := Int.to_i32 (snd size) in
    Cursor.writes W H cx cy scale.

Definition DrawCursor (input : InputState) (config : CoreConfig)
  (screenLayout : ScreenLayoutData) (st : SoftwareRenderState)
  : option SoftwareRenderState :=
  match Cursor.run (DrawCursor_writes input config screenLayout (Size (buffer st)))
                   (buffer st) with
  | Some b => Some (with_buffer b st)
  | None => None
  end.

(** ** [CopyScreen] and [CombineScreens] *)

(** Where a copy reads from: one of the two screens, or [hybridBuffer[0]]. *)
Inductive CopySource : Type :=
| FromScreen (s : Screen)
| FromHybridBuffer.

(** The calls [CombineScreens] makes on its buffers and scaler:
    [buffer.Clear()], [hybridScaler.Scale(hybridBuffer[0], src.data())],
    [buffer.CopyRows(src, translation, size)] and
    [buffer.CopyDirect(src, translation)]. *)
Inductive BufferCall : Type :=
| CallClear
| CallScale (src : Screen)
| CallCopyRows (src : CopySource) (translation size : uvec2)
| CallCopyDirect (src : Screen) (translation : uvec2).

Definition CopyScreen (src : Screen) (destTranslation : uvec2)
  (layout : ScreenLayout) : BufferCall :=
  if LayoutSupportsDirectCopy layout
  then CallCopyDirect src destTranslation
  else CallCopyRows (FromScreen src) destTranslation NDS_SCREEN_SIZE.

(** [CombineScreens] branches on the layout data only, never on a pixel:
    what it does is the sequence of calls it makes, in order. *)
Definition CombineScreens_calls (screenLayout : ScreenLayoutData) : list BufferCall :=
  let layout := Layout screenLayout in
  CallClear ::
  if IsHybridLayout layout then
    let primaryBuffer :=
      if layout_eqb layout HybridTop || layout_eqb layout FlippedHybridTop
      then TopScreen else BottomScreen in
    let smallScreenLayout := HybridSmallScreenLayout screenLayout in
    [ CallScale primaryBuffer;
      CallCopyRows FromHybridBuffer (GetHybridScreenTranslation screenLayout)
                   (uvec_scale NDS_SCREEN_SIZE (HybridRatio screenLayout)) ]
    ++ (if side_eqb smallScreenLayout Both ||
           layout_eqb layout HybridBottom || layout_eqb layout FlippedHybridBottom
        then [ CallCopyRows (FromScreen TopScreen)
                            (GetTopScreenTranslation screenLayout) NDS_SCREEN_SIZE ]
        else [])
    ++ (if side_eqb smallScreenLayout Both ||
           layout_eqb layout HybridTop || layout_eqb layout FlippedHybridTop
        then [ CallCopyRows (FromScreen BottomScreen)
                            (GetBottomScreenTranslation screenLayout) NDS_SCREEN_SIZE ]
        else [])
  else if IsLargeScreenLayout layout then
    let focusTop :=
      layout_eqb layout LargescreenTop || layout_eqb layout FlippedLargescreenTop in
    if focusTop then
      [ CallScale TopScreen;
        CallCopyRows FromHybridBuffer (GetTopScreenTranslation screenLayout)
                     (uvec_scale NDS_SCREEN_SIZE (HybridRatio screenLayout));
        CopyScreen BottomScreen (GetBottomScreenTranslation screenLayout) layout ]
    else
      [ CallScale BottomScreen;
        CallCopyRows FromHybridBuffer (GetBottomScreenTranslation screenLayout)
                     (uvec_scale NDS_SCREEN_SIZE (HybridRatio screenLayout));
        CopyScreen TopScreen (GetTopScreenTranslation screenLayout) layout ]
  else
    (if negb (layout_eqb layout BottomOnly)
     then [ CopyScreen TopScreen (GetTopScreenTranslation screenLayout) layout ]
     else [])
    ++ (if negb (layout_eqb layout TopOnly)
        then [ CopyScreen BottomScreen (GetBottomScreenTranslation screenLayout) layout ]
        else []).

Section Run.

Context `{Platform}.
Variables topBuffer bottomBuffer : SourceImage.

Definition screen_image (s : Screen) : Image :=
  match s with
  | TopScreen => span_image topBuffer
  | BottomScreen => span_image bottomBuffer
  end.

Definition source_image (src : CopySource) (st : SoftwareRenderState) : Image :=
  match src with
  | FromScreen s => screen_image s
  | FromHybridBuffer => px (hybridBuffer st)
  end.

(** The effect of one call on the render state. *)
Definition run_call (st : SoftwareRenderState) (c : BufferCall) : SoftwareRenderState :=
  match c with
  | CallClear => with_buffer (Buffer.Clear (buffer st)) st
  | CallScale s =>
      let sc := hybridScaler st in
      with_hybridBuffer
        {| Size := Size (hybridBuffer st);
           px := scaler_scale (scaler_type sc) (out_size sc) (screen_image s) |}
        st
  | CallCopyRows src translation size =>
      with_buffer (Buffer.CopyRows (source_image src st) translation size (buffer st)) st
  | CallCopyDirect s translation =>
      with_buffer (Buffer.CopyDirect (screen_image s) translation (buffer st)) st
  end.

Definition CombineScreens (screenLayout : ScreenLayoutData)
  (st : SoftwareRenderState) : SoftwareRenderState :=
  fold_left run_call (CombineScreens_calls screenLayout) st.

End Run.

(** ** [Render] *)

(** libretro-common's [conv_argb8888_abgr8888], on one pixel: red and blue
    change places. *)
Definition conv_argb8888_abgr8888 (col : pixel) : pixel :=
  Z.lor (Z.lor (Z.land (Z.shiftl col 16) 0xff0000) (Z.land (Z.shiftr col 16) 0xff))
        (Z.land col 0xff00ff00).

(** What [Render] hands to the outside: the frame given to the host's
    presentation callback, and the frame image given to Tracy. *)
Inductive HostEvent : Type :=
| video_refresh (data : Image) (width height pitch : Z)
| FrameImage (image : Image) (w h : Z).

Definition set_hybrid_size (config : CoreConfig) (screenLayout : ScreenLayoutData)
  (st : SoftwareRenderState) : SoftwareRenderState :=
  if IsHybridLayout (Layout screenLayout) || IsLargeScreenLayout (Layout screenLayout)
  then
    let requiredHybridBufferSize := uvec_scale NDS_SCREEN_SIZE (HybridRatio screenLayout) in
    let filter :=
      match GetScreenFilter config with
      | Nearest => SCALER_TYPE_POINT
      | Linear => SCALER_TYPE_BILINEAR
      end in
    with_hybridScaler
      {| scaler_type := filter; out_size := requiredHybridBufferSize |}
      (with_hybridBuffer (Buffer.SetSize requiredHybridBufferSize (hybridBuffer st)) st)
  else st.

(** The frame as composited: after [CombineScreens] and, when the lid is
    open and the cursor visible, [DrawCursor]. *)
Definition composite `{Platform} (nds : NDS) (inputState : InputState)
  (config : CoreConfig) (screenLayout : ScreenLayoutData)
  (st : SoftwareRenderState) : option SoftwareRenderState :=
  let st := with_buffer (Buffer.SetSize (BufferSize screenLayout) (buffer st)) st in
  let st := set_hybrid_size config screenLayout st in
  let st := CombineScreens (FrontTop nds) (FrontBottom nds) screenLayout st in
  if negb (IsLidClosed nds) && CursorVisible inputState
  then DrawCursor inputState config screenLayout st
  else Some st.

Definition Render `{Platform} (nds : NDS) (inputState : InputState)
  (config : CoreConfig) (screenLayout : ScreenLayoutData)
  (st : SoftwareRenderState) : option (SoftwareRenderState * list HostEvent) :=
  match composite nds inputState config screenLayout st with
  | None => None
  | Some st =>
      let b := buffer st in
      Some (st,
            video_refresh (px b) (Width b) (Height b) (row_stride (Size b))
            :: (if HAVE_TRACY && ProfilerAvailable
                then [ FrameImage (fun x y => conv_argb8888_abgr8888 (px b x y))
                                  (Width b) (Height b) ]
                else []))
  end.

(** ** The fragment shader's [main] *)

Module Shader.

Local Open Scope Q_scope.

Record vec4 : Type := { v_x : Q; v_y : Q; v_z : Q; v_w : Q }.

(** The two uniforms [main] reads. *)
Record Uniforms : Type := {
  cursorPos : vec4;
  cursorVisible : bool
}.

Definition geb (a b : Q) : bool := Qle_bool b a.
Definition leb (a b : Q) : bool := Qle_bool a b.
Definition ltb (a b : Q) : bool := negb (Qle_bool b a).

Definition max (a b : Q) : Q := if ltb a b then b else a.
Definition min (a b : Q) : Q := if ltb b a then b else a.
Definition clamp (x lo hi : Q) : Q := min (max x lo) hi.

(** Lines 24-26: the box test. *)
Definition inside (cursorPos : vec4) (fTexcoord : Q * Q) : bool :=
  geb (fst fTexcoord) (v_x cursorPos) && ltb (fst fTexcoord) (v_z cursorPos) &&
  geb (snd fTexcoord) (v_y cursorPos) && ltb (snd fTexcoord) (v_w cursorPos).

Definition eps : Q := 1 # 1000000.

(** Lines 31-39, one axis: the bucket of coordinate [t] in [lo, hi). *)
Definition bucket (t lo hi : Q) : Z :=
  let w := max (hi - lo) (1 # 1000000) in
  let u := clamp ((t - lo) / w) 0 1 in
  Int.clamp (Qfloor (u * 5 - eps)) 0%Z 4%Z.

Definition set_rgb (c : Q) (pixel : vec4) : vec4 :=
  {| v_x := c; v_y := c; v_z := c; v_w := v_w pixel |}.

(** [vec4(pixel.bgr, 1.0)]. *)
Definition bgr1 (pixel : vec4) : vec4 :=
  {| v_x := v_z pixel; v_y := v_y pixel; v_z := v_x pixel; v_w := 1 |}.

Definition main (u : Uniforms) (ScreenTex : Q * Q -> vec4)
  (fTexcoord : Q * Q) : vec4 :=
  let pixel := ScreenTex fTexcoord in
  let pixel :=
    if cursorVisible u && geb (snd fTexcoord) (1 # 2) && leb (snd fTexcoord) 1
    then
      if inside (cursorPos u) fTexcoord
      then
        let bx := bucket (fst fTexcoord) (v_x (cursorPos u)) (v_z (cursorPos u)) in
        let by_ := bucket (snd fTexcoord) (v_y (cursorPos u)) (v_w (cursorPos u)) in
        match Frag.classify bx by_ with
        | WhiteFill => set_rgb 1 pixel
        | BlackRing => set_rgb 0 pixel
        | Untouched => pixel
        end
      else pixel
    else pixel in
  bgr1 pixel.

End Shader.

(** ** Vocabulary of the statements *)

(** How many elements of a list satisfy a test. *)
Definition count {A : Type} (p : A -> bool) (l : list A) : nat :=
  length (filter p l).

Definition has_color (c : pixel) (w : PxWrite) : bool := write_color w =? c.

Definition pos_eqb (p q : Z * Z) : bool :=
  (fst p =? fst q) && (snd p =? snd q).

(** Some call in [ws] writes the pixel at [p]. *)
Definition written (ws : list PxWrite) (p : Z * Z) : bool :=
  existsb (fun w => pos_eqb (write_pos w) p) ws.

(** The pixels [(x, y)] with [x] in [xs] and [y] in [ys], row by row. *)
Definition cells (xs ys : list Z) : list (Z * Z) :=
  flat_map (fun y => map (fun x => (x, y)) xs) ys.

(** The [5 scale] by [5 scale] pixels under the scaled pattern centred at
    [(cx, cy)]: base cell [b] covers [c + b scale .. c + b scale + scale - 1]. *)
Definition box_pixels (cx cy scale : Z) : list (Z * Z) :=
  cells (Zrange (cx - 2 * scale) (cx + 2 * scale + (scale - 1)))
        (Zrange (cy - 2 * scale) (cy + 2 * scale + (scale - 1))).

Definition in_box (cx cy scale : Z) (p : Z * Z) : Prop :=
  cx - 2 * scale <= fst p <= cx + 2 * scale + (scale - 1) /\
  cy - 2 * scale <= snd p <= cy + 2 * scale + (scale - 1).

(** The base cell of a destination pixel. *)
Definition base_cell (cx cy scale : Z) (p : Z * Z) : Z * Z :=
  (Cpu.floor_div (fst p - cx) scale, Cpu.floor_div (snd p - cy) scale).

Definition in_bounds (W H : Z) (w : PxWrite) : Prop :=
  0 <= fst (write_pos w) <= W - 1 /\ 0 <= snd (write_pos w) <= H - 1.

(** The loop body at a pixel, the class of a pixel, and whether the loop
    body paints it. *)
Definition cell_at (cx cy scale : Z) (p : Z * Z) : list PxWrite :=
  Cursor.cell cx cy scale (fst p) (snd p).

Definition class_at (cx cy scale : Z) (p : Z * Z) : CellClass :=
  Cpu.classify (fst (base_cell cx cy scale p)) (snd (base_cell cx cy scale p)).

Definition paints (cx cy scale : Z) (p : Z * Z) : bool :=
  negb (CellClass_eqb (class_at cx cy scale p) Untouched).

(** Within one base cell of the centre along one axis: coordinate [v] is
    in the [3 scale] wide middle band around [c]. *)
Definition near (scale c v : Z) : bool :=
  (c - scale <=? v) && (v <=? c + 2 * scale - 1).

(** [W] and [H] are the extents of buffer [b] as [DrawCursor] reads them:
    [int(buffer.Size().x)] and [int(buffer.Size().y)] of an unsigned size. *)
Definition fits (W H : Z) (b : PixelBuffer) : Prop :=
  W = Int.to_i32 (Width b) /\ H = Int.to_i32 (Height b) /\
  0 <= Width b /\ 0 <= Height b.

(** The primary screen of a hybrid layout, the other screen, and the
    un-magnified copy of a screen at its own translation. *)
Definition hybrid_primary (l : ScreenLayout) : option Screen :=
  match l with
  | HybridTop | FlippedHybridTop => Some TopScreen
  | HybridBottom | FlippedHybridBottom => Some BottomScreen
  | _ => None
  end.

Definition companion (s : Screen) : Screen :=
  match s with
  | TopScreen => BottomScreen
  | BottomScreen => TopScreen
  end.

Definition small_copy (screenLayout : ScreenLayoutData) (s : Screen) : BufferCall :=
  CallCopyRows (FromScreen s)
               (match s with
                | TopScreen => GetTopScreenTranslation screenLayout
                | BottomScreen => GetBottomScreenTranslation screenLayout
                end)
               NDS_SCREEN_SIZE.

(** The layouts whose magnified (primary) screen is the lower one. *)
Definition lower_screen_magnified (l : ScreenLayout) : bool :=
  match l with
  | HybridBottom | FlippedHybridBottom
  | LargescreenBottom | FlippedLargescreenBottom => true
  | _ => false
  end.

(** The pixel at [(x, y)] of the frame [Render] hands to [video_refresh],
    and of the frame as composited. *)
Definition delivered_pixel (r : option (SoftwareRenderState * list HostEvent))
  (x y : Z) : option pixel :=
  match r with
  | Some (_, video_refresh data _ _ _ :: _) => Some (data x y)
  | _ => None
  end.

Definition composited_pixel (r : option SoftwareRenderState) (x y : Z) : option pixel :=
  match r with
  | Some st => Some (px (buffer st) x y)
  | None => None
  end.

(** "The pixels delivered to the callback are in the swapped channel
    order": each delivered pixel is the composited one with red and blue
    exchanged. *)
Definition delivers_swapped `{Platform} (nds : NDS) (inputState : InputState)
  (config : CoreConfig) (screenLayout : ScreenLayoutData)
  (st : SoftwareRenderState) : Prop :=
  forall x y,
    0 <= x < fst (BufferSize screenLayout) ->
    0 <= y < snd (BufferSize screenLayout) ->
    delivered_pixel (Render nds inputState config screenLayout st) x y
    = option_map conv_argb8888_abgr8888
        (composited_pixel (composite nds inputState config screenLayout st) x y).

(** ** Sample inputs for the examples *)

Module Sample.

(** A platform: clear to zero, nearest-neighbour resampling of a screen,
    four bytes a pixel, Tracy built in and attached. *)
Definition platform : Platform :=
  {| clear_value := 0;
     scaler_scale := fun _ out img x y =>
                       img (x * NDS_SCREEN_WIDTH / fst out)
                           (y * NDS_SCREEN_HEIGHT / snd out);
     row_stride := fun sz => 4 * fst sz;
     HAVE_TRACY := true;
     ProfilerAvailable := true |}.

Definition red : pixel := 0xFFFF0000.
Definition green : pixel := 0xFF00FF00.

(** A red upper and a green lower screen, lid open. *)
Definition nds : NDS :=
  {| FrontTop := repeat red (Z.to_nat (NDS_SCREEN_WIDTH * NDS_SCREEN_HEIGHT));
     FrontBottom := repeat green (Z.to_nat (NDS_SCREEN_WIDTH * NDS_SCREEN_HEIGHT));
     IsLidClosed := false |}.

Definition input : InputState :=
  {| TouchPosition := (128, 96); CursorVisible := true |}.

Definition config : CoreConfig :=
  {| CursorSize := 2; GetScreenFilter := Nearest |}.

(** A layout record for [l] with the screens stacked and ratio 2. *)
Definition layout (l : ScreenLayout) (side : HybridSideScreenDisplay) : ScreenLayoutData :=
  {| Layout := l;
     BufferSize := (256, 384);
     HybridRatio := 2;
     HybridSmallScreenLayout := side;
     GetTopScreenTranslation := (0, 0);
     GetBottomScreenTranslation := (0, 192);
     GetHybridScreenTranslation := (0, 0);
     GetBottomScreenMatrix := fun p => (fst p, snd p + 192) |}.

(** A render state left over from an earlier frame: every pixel a stale
    grey. *)
Definition stale : pixel := 0xFF777777.

Definition state : SoftwareRenderState :=
  {| buffer := {| Size := (1, 1); px := fun _ _ => stale |};
     hybridBuffer := {| Size := (1, 1); px := fun _ _ => stale |};
     hybridScaler := {| scaler_type := SCALER_TYPE_POINT; out_size := (512, 384) |} |}.

(** A cursor rectangle in the lower half of the texture. *)
Definition uniforms : Shader.Uniforms :=
  {| Shader.cursorPos :=
       {| Shader.v_x := 1 # 4; Shader.v_y := 1 # 2;
          Shader.v_z := 3 # 4; Shader.v_w := 3 # 4 |};
     Shader.cursorVisible := true |}.

Definition texture (_ : Q * Q) : Shader.vec4 :=
  {| Shader.v_x := 1 # 5; Shader.v_y := 2 # 5; Shader.v_z := 3 # 5; Shader.v_w := 1 # 2 |}.

End Sample.

(** ** More vocabulary *)

(** The focused screen of a large-screen layout. *)
Definition largescreen_primary (l : ScreenLayout) : option Screen :=
  match l with
  | LargescreenTop | FlippedLargescreenTop => Some TopScreen
  | LargescreenBottom | FlippedLargescreenBottom => Some BottomScreen
  | _ => None
  end.

Definition screen_translation (screenLayout : ScreenLayoutData) (s : Screen) : uvec2 :=
  match s with
  | TopScreen => GetTopScreenTranslation screenLayout
  | BottomScreen => GetBottomScreenTranslation screenLayout
  end.

(** The touch point as [DrawCursor] transforms it: clamped to the screen,
    then mapped by the bottom screen's matrix. *)
Definition transformed_touch (input : InputState)
  (screenLayout : ScreenLayoutData) : ivec2 :=
  GetBottomScreenMatrix screenLayout
    (vec_clamp (TouchPosition input) (0, 0)
               (NDS_SCREEN_WIDTH - 1, NDS_SCREEN_HEIGHT - 1)).

(** The render state [Render] has when it reaches [DrawCursor]: buffers
    resized, screens combined. *)
Definition combined `{Platform} (nds : NDS) (config : CoreConfig)
  (screenLayout : ScreenLayoutData) (st : SoftwareRenderState) : SoftwareRenderState :=
  CombineScreens (FrontTop nds) (FrontBottom nds) screenLayout
    (set_hybrid_size config screenLayout
       (with_buffer (Buffer.SetSize (BufferSize screenLayout) (buffer st)) st)).

(** The magnified layer of a hybrid or large-screen frame at [(x, y)]:
    inside the rectangle of 256 by 192 times the ratio at [origin], the
    pixel of screen [primary] as the scaler resamples it to that size;
    outside it, the clear value. *)
Definition magnified_at `{Platform} (topBuffer bottomBuffer : SourceImage)
  (screenLayout : ScreenLayoutData) (st : SoftwareRenderState)
  (primary : Screen) (origin : uvec2) (x y : Z) : pixel :=
  if in_rect origin (uvec_scale NDS_SCREEN_SIZE (HybridRatio screenLayout)) x y
  then scaler_scale (scaler_type (hybridScaler st))
                    (uvec_scale NDS_SCREEN_SIZE (HybridRatio screenLayout))
                    (screen_image topBuffer bottomBuffer primary)
                    (x - fst origin) (y - snd origin)
  else clear_value.

(** The un-magnified layer: screen [s] at its own translation, over
    [under]. *)
Definition small_screen_over (topBuffer bottomBuffer : SourceImage)
  (screenLayout : ScreenLayoutData) (s : Screen) (under : pixel) (x y : Z) : pixel :=
  if in_rect (screen_translation screenLayout s) NDS_SCREEN_SIZE x y
  then screen_image topBuffer bottomBuffer s
         (x - fst (screen_translation screenLayout s))
         (y - snd (screen_translation screenLayout s))
  else under.

(** The sample render state with its output buffer at the sample
    layouts' size. *)
Definition sample_frame_state : SoftwareRenderState :=
  with_buffer (Buffer.SetSize (256, 384) (buffer Sample.state)) Sample.state.

(** * Properties *)

(** ** Integer helpers *)

Lemma Int_max_spec a b : Int.max a b = Z.max a b.
Proof. unfold Int.max. destruct (Z.ltb_spec a b); lia. Qed.

Lemma Int_min_spec a b : Int.min a b = Z.min a b.
Proof. unfold Int.min. destruct (Z.ltb_spec b a); lia. Qed.

Lemma Int_abs_spec a : Int.abs a = Z.abs a.
Proof. unfold Int.abs. destruct (Z.ltb_spec a 0); lia. Qed.

Lemma Int_clamp_bounds x lo hi : lo <= hi -> lo <= Int.clamp x lo hi <= hi.
Proof. unfold Int.clamp. rewrite Int_min_spec, Int_max_spec. lia. Qed.

Lemma CellClass_eqb_eq a b : CellClass_eqb a b = true <-> a = b.
Proof. destruct a, b; simpl; split; intro H; congruence. Qed.

(** ** Floor division *)

Lemma floor_div_is_div a b : 0 < b -> Cpu.floor_div a b = a / b.
Proof.
  intros Hb. unfold Cpu.floor_div.
  pose proof (Z.quot_rem' a b) as E.
  destruct (Z.ltb_spec a 0) as [Ha | Ha].
  - pose proof (Z.rem_nonpos a b ltac:(lia) ltac:(lia)) as R1.
    pose proof (Z.rem_bound_abs a b ltac:(lia)) as R2.
    destruct (Z.eqb_spec (Z.rem a b) 0) as [R0 | R0]; simpl.
    + apply Z.div_unique with (r := 0); lia.
    + apply Z.div_unique with (r := Z.rem a b + b); lia.
  - rewrite andb_false_r. apply Z.quot_div_nonneg; lia.
Qed.

(** No intermediate of [floor_div] leaves the [int] range: the quotient
    does not, and [q - 1] is only formed when [b >= 2]. *)
Lemma floor_div_in_int a b :
  Int.in_int a -> 0 < b ->
  Int.in_int (Z.quot a b) /\
  (Z.rem a b <> 0 -> a < 0 -> Int.in_int (Z.quot a b - 1)) /\
  Int.in_int (Cpu.floor_div a b).
Proof.
  intros Ha Hb.
  pose proof (floor_div_is_div a b Hb) as Hfd.
  unfold Int.in_int, Int.int_min, Int.int_max in *.
  pose proof (Z.quot_rem' a b) as E.
  pose proof (Z.rem_bound_abs a b ltac:(lia)) as R2.
  assert (Hq : - 2 ^ 31 <= Z.quot a b <= 2 ^ 31 - 1).
  { destruct (Z.ltb_spec a 0).
    - pose proof (Z.rem_nonpos a b ltac:(lia) ltac:(lia)). nia.
    - pose proof (Z.rem_nonneg a b ltac:(lia) ltac:(lia)). nia. }
  split; [exact Hq|]. split.
  - intros Hr Hneg.
    pose proof (Z.rem_nonpos a b ltac:(lia) ltac:(lia)). nia.
  - unfold Cpu.floor_div.
    destruct (Z.eqb_spec (Z.rem a b) 0); simpl; [lia|].
    destruct (Z.ltb_spec a 0); [|lia].
    pose proof (Z.rem_nonpos a b ltac:(lia) ltac:(lia)). nia.
Qed.

(** C3: [floor_div] is true floor division: for every [a] and every
    positive [b], [floor_div a b * b <= a < (floor_div a b + 1) * b]; and
    [floor_div (-1) 3 = -1], [floor_div (-4) 3 = -2]. *)
Theorem floor_div_floor (a b : Z) :
  0 < b ->
  (Cpu.floor_div a b * b <= a < (Cpu.floor_div a b + 1) * b) /\
  Cpu.floor_div (-1) 3 = -1 /\
  Cpu.floor_div (-4) 3 = -2.
Proof.
  intros Hb. split; [|split; reflexivity].
  rewrite floor_div_is_div by assumption.
  pose proof (Z.div_mod a b ltac:(lia)) as E.
  pose proof (Z.mod_pos_bound a b Hb) as R.
  nia.
Qed.

Lemma floor_div_floor_witness :
  0 < 3 /\
  ((Cpu.floor_div (-7) 3 * 3 <= -7 < (Cpu.floor_div (-7) 3 + 1) * 3) /\
   Cpu.floor_div (-1) 3 = -1 /\ Cpu.floor_div (-4) 3 = -2).
Proof. split; [lia | apply (floor_div_floor (-7) 3); lia]. Defined.

(** ** The two classifications agree *)

(** C1: on each of the 25 base cells [(bx, by)], [-2 <= bx, by <= 2], the
    CPU classification equals the shader's classification of the bucket
    [(bx + 2, by + 2)]. *)
Theorem cpu_frag_classify_agree (bx by_ : Z) :
  -2 <= bx <= 2 -> -2 <= by_ <= 2 ->
  Cpu.classify bx by_ = Frag.classify (bx + 2) (by_ + 2).
Proof.
  intros Hx Hy.
  assert (Ex : bx = -2 \/ bx = -1 \/ bx = 0 \/ bx = 1 \/ bx = 2) by lia.
  assert (Ey : by_ = -2 \/ by_ = -1 \/ by_ = 0 \/ by_ = 1 \/ by_ = 2) by lia.
  destruct Ex as [-> | [-> | [-> | [-> | ->]]]];
    destruct Ey as [-> | [-> | [-> | [-> | ->]]]]; reflexivity.
Qed.

Lemma cpu_frag_classify_agree_witness :
  (-2 <= 2 <= 2) /\ (-2 <= -1 <= 2) /\
  Cpu.classify 2 (-1) = Frag.classify (2 + 2) (-1 + 2).
Proof.
  split; [lia|]. split; [lia|].
  apply (cpu_frag_classify_agree 2 (-1)); lia.
Defined.

(** ** Ranges and counting *)

Lemma Zrange_In lo hi x : In x (Zrange lo hi) <-> lo <= x <= hi.
Proof.
  unfold Zrange. rewrite in_map_iff. split.
  - intros [i [<- Hi]]. apply in_seq in Hi. lia.
  - intros Hx. exists (Z.to_nat (x - lo)). split; [lia|].
    apply in_seq. lia.
Qed.

Lemma Zrange_length lo hi : length (Zrange lo hi) = Z.to_nat (hi - lo + 1).
Proof. unfold Zrange. now rewrite length_map, length_seq. Qed.

Lemma Zrange_NoDup lo hi : NoDup (Zrange lo hi).
Proof.
  unfold Zrange. apply Injective_map_NoDup; [|apply seq_NoDup].
  intros i j Hij. lia.
Qed.

Lemma map_seq_from {B : Type} (g : nat -> B) n a :
  map g (seq a n) = map (fun i => g (a + i)%nat) (seq 0 n).
Proof.
  revert a g. induction n as [|n IH]; intros a g; simpl; [reflexivity|].
  rewrite Nat.add_0_r. f_equal.
  rewrite (IH (S a) g), (IH 1%nat (fun i => g (a + i)%nat)).
  apply map_ext. intros i. f_equal. lia.
Qed.

Lemma Zrange_split lo mid hi :
  lo <= mid + 1 -> mid <= hi ->
  Zrange lo hi = Zrange lo mid ++ Zrange (mid + 1) hi.
Proof.
  intros H1 H2. unfold Zrange.
  replace (Z.to_nat (hi - lo + 1))
    with (Z.to_nat (mid - lo + 1) + Z.to_nat (hi - (mid + 1) + 1))%nat by lia.
  rewrite seq_app, map_app. f_equal.
  rewrite map_seq_from. apply map_ext. intros i. lia.
Qed.

Lemma count_app {A} (p : A -> bool) l1 l2 :
  count p (l1 ++ l2) = (count p l1 + count p l2)%nat.
Proof. unfold count. now rewrite filter_app, length_app. Qed.

Lemma count_ext {A} (p q : A -> bool) l :
  (forall x, In x l -> p x = q x) -> count p l = count q l.
Proof. intros E. unfold count. now rewrite (filter_ext_in p q l E). Qed.

Lemma count_all {A} (p : A -> bool) l :
  (forall x, In x l -> p x = true) -> count p l = length l.
Proof.
  induction l as [|a l IH]; intros E; [reflexivity|].
  unfold count in *. simpl. rewrite (E a (or_introl eq_refl)). simpl.
  f_equal. apply IH. intros x Hx. apply E. now right.
Qed.

Lemma count_none {A} (p : A -> bool) l :
  (forall x, In x l -> p x = false) -> count p l = 0%nat.
Proof.
  induction l as [|a l IH]; intros E; [reflexivity|].
  unfold count in *. simpl. rewrite (E a (or_introl eq_refl)).
  apply IH. intros x Hx. apply E. now right.
Qed.

Lemma count_negb {A} (p : A -> bool) l :
  (count (fun x => negb (p x)) l + count p l = length l)%nat.
Proof.
  induction l as [|a l IH]; [reflexivity|].
  unfold count in *. simpl. destruct (p a); simpl; lia.
Qed.

Lemma count_or_disjoint {A} (p q : A -> bool) l :
  (forall x, In x l -> p x && q x = false) ->
  count (fun x => p x || q x) l = (count p l + count q l)%nat.
Proof.
  induction l as [|a l IH]; intros E; [reflexivity|].
  assert (IH' := IH (fun x Hx => E x (or_intror Hx))).
  pose proof (E a (or_introl eq_refl)) as Ea.
  unfold count in *. simpl.
  destruct (p a), (q a); simpl in *; try discriminate; lia.
Qed.

Lemma count_map {A B} (f : A -> B) (p : B -> bool) l :
  count p (map f l) = count (fun x => p (f x)) l.
Proof.
  induction l as [|a l IH]; [reflexivity|].
  unfold count in *. simpl. destruct (p (f a)); simpl; lia.
Qed.

(** Painting at most one element per cell: counting in the output is
    counting cells. *)
Lemma count_flat_map {A B} (f : A -> list B) (p : B -> bool) (g : A -> bool) l :
  (forall x, In x l -> count p (f x) = if g x then 1%nat else 0%nat) ->
  count p (flat_map f l) = count g l.
Proof.
  induction l as [|a l IH]; intros E; [reflexivity|].
  simpl. rewrite count_app, (E a (or_introl eq_refl)).
  rewrite IH by (intros x Hx; apply E; now right).
  unfold count. simpl. destruct (g a); simpl; lia.
Qed.

Lemma count_interval lo hi a b :
  lo <= a -> a <= b + 1 -> b <= hi ->
  Z.of_nat (count (fun x => (a <=? x) && (x <=? b)) (Zrange lo hi)) = b - a + 1.
Proof.
  intros H1 H2 H3.
  rewrite (Zrange_split lo (a - 1) hi) by lia.
  rewrite (Zrange_split (a - 1 + 1) b hi) by lia.
  rewrite !count_app.
  rewrite (count_none _ (Zrange lo (a - 1))), (count_all _ (Zrange (a - 1 + 1) b)),
    (count_none _ (Zrange (b + 1) hi)).
  - rewrite Zrange_length. lia.
  - intros x Hx. apply Zrange_In in Hx. lia.
  - intros x Hx. apply Zrange_In in Hx. lia.
  - intros x Hx. apply Zrange_In in Hx. lia.
Qed.

Lemma cells_In xs ys p : In p (cells xs ys) <-> In (fst p) xs /\ In (snd p) ys.
Proof.
  unfold cells. rewrite in_flat_map. split.
  - intros [y [Hy Hp]]. apply in_map_iff in Hp. destruct Hp as [x [<- Hx]]. now split.
  - intros [Hx Hy]. exists (snd p). split; [assumption|].
    apply in_map_iff. exists (fst p). split; [now destruct p | assumption].
Qed.

Lemma cells_NoDup xs ys : NoDup xs -> NoDup ys -> NoDup (cells xs ys).
Proof.
  intros Hxs Hys. induction Hys as [|y ys Hy Hys IH]; [constructor|].
  change (cells xs (y :: ys)) with (map (fun x => (x, y)) xs ++ cells xs ys).
  apply NoDup_app; [|exact IH|].
  - apply Injective_map_NoDup; [|exact Hxs].
    intros a b E. congruence.
  - intros p Hp Hq. apply in_map_iff in Hp. destruct Hp as [x [<- Hx]].
    apply cells_In in Hq. simpl in Hq. tauto.
Qed.

Lemma cells_length xs ys : length (cells xs ys) = (length xs * length ys)%nat.
Proof.
  induction ys as [|y ys IH]; simpl; [lia|].
  change (cells xs (y :: ys)) with (map (fun x => (x, y)) xs ++ cells xs ys).
  rewrite length_app, length_map, IH. lia.
Qed.

Lemma count_cons {A} (p : A -> bool) a l :
  count p (a :: l) = ((if p a then 1 else 0) + count p l)%nat.
Proof. unfold count. simpl. now destruct (p a). Qed.

Lemma count_cells_prod (p q : Z -> bool) xs ys :
  count (fun c => p (fst c) && q (snd c)) (cells xs ys)
  = (count p xs * count q ys)%nat.
Proof.
  induction ys as [|y ys IH]; [unfold count; simpl; lia|].
  change (cells xs (y :: ys)) with (map (fun x => (x, y)) xs ++ cells xs ys).
  rewrite count_app, count_map, IH, (count_cons q). simpl.
  destruct (q y).
  - rewrite (count_ext _ p) by (intros; apply andb_true_r). lia.
  - rewrite count_none by (intros; apply andb_false_r). lia.
Qed.

(** ** The scaled cursor pattern *)

Lemma flat_map_map {A B C} (f : A -> B) (g : B -> list C) l :
  flat_map g (map f l) = flat_map (fun x => g (f x)) l.
Proof. induction l as [|a l IH]; simpl; [reflexivity | now rewrite IH]. Qed.

(** A nested loop over [ys] then [xs] visits [cells xs ys] in order. *)
Lemma nested_loop_cells {B} (f : Z -> Z -> list B) xs ys :
  flat_map (fun y => flat_map (fun x => f x y) xs) ys
  = flat_map (fun p => f (fst p) (snd p)) (cells xs ys).
Proof.
  induction ys as [|y ys IH]; [reflexivity|].
  change (cells xs (y :: ys)) with (map (fun x => (x, y)) xs ++ cells xs ys).
  simpl. rewrite flat_map_app, flat_map_map, IH. reflexivity.
Qed.

Lemma cell_at_positions cx cy s p :
  map write_pos (cell_at cx cy s p) = if paints cx cy s p then [p] else [].
Proof.
  unfold cell_at, paints, class_at, base_cell, Cursor.cell. simpl.
  destruct (Cpu.classify _ _); destruct p; reflexivity.
Qed.

Lemma positions_filter cx cy s l :
  map write_pos (flat_map (cell_at cx cy s) l) = filter (paints cx cy s) l.
Proof.
  induction l as [|p l IH]; [reflexivity|].
  simpl. rewrite map_app, IH, cell_at_positions.
  now destruct (paints cx cy s p).
Qed.

Lemma cell_at_color cx cy s p w :
  In w (cell_at cx cy s p) ->
  write_pos w = p /\
  ((write_color w = white /\ class_at cx cy s p = WhiteFill) \/
   (write_color w = black /\ class_at cx cy s p = BlackRing)).
Proof.
  unfold cell_at, class_at, base_cell, Cursor.cell. simpl.
  destruct (Cpu.classify _ _); simpl; intros Hin; try contradiction;
    destruct Hin as [<- | []]; destruct p; simpl; auto.
Qed.

Lemma count_color_cells cx cy s c k l :
  (c = white /\ k = WhiteFill) \/ (c = black /\ k = BlackRing) ->
  count (has_color c) (flat_map (cell_at cx cy s) l)
  = count (fun p => CellClass_eqb (class_at cx cy s p) k) l.
Proof.
  intros Hc. apply count_flat_map. intros p _.
  unfold cell_at, class_at, base_cell, Cursor.cell. simpl.
  destruct Hc as [[-> ->] | [-> ->]]; destruct (Cpu.classify _ _); reflexivity.
Qed.

Lemma written_In ws p : written ws p = true <-> In p (map write_pos ws).
Proof.
  unfold written. rewrite existsb_exists, in_map_iff.
  split; intros [w [H1 H2]]; exists w.
  - unfold pos_eqb in H2. apply andb_true_iff in H2. destruct H2 as [E1 E2].
    apply Z.eqb_eq in E1, E2. split; [|assumption].
    destruct (write_pos w), p; simpl in *; congruence.
  - split; [assumption|]. subst p. unfold pos_eqb. now rewrite !Z.eqb_refl.
Qed.

Section Pattern.

Variables cx cy s : Z.
Hypothesis scale_pos : 1 <= s.

Lemma abs_floor_div_le1 c v :
  (Int.abs (Cpu.floor_div (v - c) s) <=? 1) = near s c v.
Proof.
  rewrite floor_div_is_div, Int_abs_spec by lia. unfold near.
  pose proof (Z.div_mod (v - c) s ltac:(lia)) as E.
  pose proof (Z.mod_pos_bound (v - c) s ltac:(lia)) as R.
  destruct (Z.leb_spec (Z.abs ((v - c) / s)) 1);
    destruct (Z.leb_spec (c - s) v); destruct (Z.leb_spec v (c + 2 * s - 1));
    simpl; try reflexivity; exfalso; nia.
Qed.

Lemma abs_floor_div_eq2 c v :
  c - 2 * s <= v <= c + 2 * s + (s - 1) ->
  (Int.abs (Cpu.floor_div (v - c) s) =? 2) = negb (near s c v).
Proof.
  intros Hv. rewrite <- abs_floor_div_le1.
  rewrite floor_div_is_div, Int_abs_spec by lia.
  pose proof (Z.div_mod (v - c) s ltac:(lia)) as E.
  pose proof (Z.mod_pos_bound (v - c) s ltac:(lia)) as R.
  assert (-2 <= (v - c) / s <= 2) by nia.
  destruct (Z.eqb_spec (Z.abs ((v - c) / s)) 2);
    destruct (Z.leb_spec (Z.abs ((v - c) / s)) 1); simpl; try reflexivity; lia.
Qed.

Lemma base_cell_range p :
  in_box cx cy s p ->
  -2 <= fst (base_cell cx cy s p) <= 2 /\ -2 <= snd (base_cell cx cy s p) <= 2.
Proof.
  intros [Hx Hy]. unfold base_cell. simpl.
  rewrite !floor_div_is_div by lia.
  pose proof (Z.div_mod (fst p - cx) s ltac:(lia)).
  pose proof (Z.mod_pos_bound (fst p - cx) s ltac:(lia)).
  pose proof (Z.div_mod (snd p - cy) s ltac:(lia)).
  pose proof (Z.mod_pos_bound (snd p - cy) s ltac:(lia)).
  split; nia.
Qed.

Lemma class_in_box p :
  in_box cx cy s p ->
  class_at cx cy s p =
    if near s cx (fst p) && near s cy (snd p) then WhiteFill
    else if near s cx (fst p) || near s cy (snd p) then BlackRing
    else Untouched.
Proof.
  intros [Hx Hy].
  unfold class_at, base_cell, Cpu.classify, Cpu.inWhite3x3, Cpu.inRing, Cpu.isCorner.
  simpl.
  rewrite !abs_floor_div_le1, !abs_floor_div_eq2 by assumption.
  destruct (near s cx (fst p)), (near s cy (snd p)); reflexivity.
Qed.

Lemma box_pixels_In p : In p (box_pixels cx cy s) <-> in_box cx cy s p.
Proof.
  unfold box_pixels, in_box. rewrite cells_In, !Zrange_In. reflexivity.
Qed.

Local Abbreviation xs := (Zrange (cx - 2 * s) (cx + 2 * s + (s - 1))).
Local Abbreviation ys := (Zrange (cy - 2 * s) (cy + 2 * s + (s - 1))).

Lemma count_near_x : Z.of_nat (count (near s cx) xs) = 3 * s.
Proof. unfold near. rewrite count_interval; lia. Qed.

Lemma count_near_y : Z.of_nat (count (near s cy) ys) = 3 * s.
Proof. unfold near. rewrite count_interval; lia. Qed.

Lemma count_far_x : Z.of_nat (count (fun v => negb (near s cx v)) xs) = 2 * s.
Proof.
  pose proof (count_negb (near s cx) xs) as E. pose proof count_near_x.
  rewrite Zrange_length in E. lia.
Qed.

Lemma count_far_y : Z.of_nat (count (fun v => negb (near s cy v)) ys) = 2 * s.
Proof.
  pose proof (count_negb (near s cy) ys) as E. pose proof count_near_y.
  rewrite Zrange_length in E. lia.
Qed.

Lemma count_white_cells :
  Z.of_nat (count (fun p => CellClass_eqb (class_at cx cy s p) WhiteFill)
                  (box_pixels cx cy s)) = 9 * s * s.
Proof.
  rewrite (count_ext _ (fun p => near s cx (fst p) && near s cy (snd p))).
  - unfold box_pixels. rewrite count_cells_prod, Nat2Z.inj_mul.
    rewrite count_near_x, count_near_y. lia.
  - intros p Hp. apply box_pixels_In in Hp. rewrite (class_in_box p Hp).
    destruct (near s cx (fst p)), (near s cy (snd p)); reflexivity.
Qed.

Lemma count_black_cells :
  Z.of_nat (count (fun p => CellClass_eqb (class_at cx cy s p) BlackRing)
                  (box_pixels cx cy s)) = 12 * s * s.
Proof.
  rewrite (count_ext _ (fun p => (near s cx (fst p) && negb (near s cy (snd p)))
                                 || (negb (near s cx (fst p)) && near s cy (snd p)))).
  - rewrite count_or_disjoint.
    + unfold box_pixels.
      rewrite (count_cells_prod (near s cx) (fun v => negb (near s cy v))).
      rewrite (count_cells_prod (fun v => negb (near s cx v)) (near s cy)).
      rewrite Nat2Z.inj_add, !Nat2Z.inj_mul.
      rewrite count_near_x, count_near_y, count_far_x, count_far_y. lia.
    + intros p _. destruct (near s cx (fst p)), (near s cy (snd p)); reflexivity.
  - intros p Hp. apply box_pixels_In in Hp. rewrite (class_in_box p Hp).
    destruct (near s cx (fst p)), (near s cy (snd p)); reflexivity.
Qed.

Lemma count_untouched_cells :
  Z.of_nat (count (fun p => negb (paints cx cy s p)) (box_pixels cx cy s))
  = 4 * s * s.
Proof.
  rewrite (count_ext _ (fun p => negb (near s cx (fst p)) && negb (near s cy (snd p)))).
  - unfold box_pixels.
    rewrite (count_cells_prod (fun v => negb (near s cx v)) (fun v => negb (near s cy v))).
    rewrite Nat2Z.inj_mul, count_far_x, count_far_y. lia.
  - intros p Hp. apply box_pixels_In in Hp. unfold paints.
    rewrite (class_in_box p Hp).
    destruct (near s cx (fst p)), (near s cy (snd p)); reflexivity.
Qed.

(** With the box inside the buffer nothing is clipped. *)
Lemma writes_unclipped W H :
  0 <= cx - 2 * s -> cx + 2 * s + (s - 1) <= W - 1 ->
  0 <= cy - 2 * s -> cy + 2 * s + (s - 1) <= H - 1 ->
  Cursor.writes W H cx cy s = flat_map (cell_at cx cy s) (box_pixels cx cy s).
Proof.
  intros. unfold Cursor.writes, box_pixels.
  rewrite !Int_max_spec, !Int_min_spec.
  rewrite (nested_loop_cells (Cursor.cell cx cy s)).
  rewrite !Z.max_r, !Z.min_r by lia. reflexivity.
Qed.

End Pattern.

(** ** The writes stay inside the buffer, and what they leave behind *)

Lemma to_u32_small x : 0 <= x < 2 ^ 32 -> Int.to_u32 x = x.
Proof. intros Hx. unfold Int.to_u32. now apply Z.mod_small. Qed.

Lemma to_i32_le z : 0 <= z -> Int.to_i32 z <= z.
Proof.
  intros Hz. unfold Int.to_i32.
  pose proof (Z.mod_le (z + 2 ^ 31) (2 ^ 32) ltac:(lia) ltac:(lia)). lia.
Qed.

Lemma to_i32_max z : Int.to_i32 z <= Int.int_max.
Proof.
  unfold Int.to_i32, Int.int_max.
  pose proof (Z.mod_pos_bound (z + 2 ^ 31) (2 ^ 32) ltac:(lia)). lia.
Qed.

(** The clipping of lines 169-172 alone keeps every write inside
    [0 .. W-1] by [0 .. H-1], whatever the centre and the scale. *)
Lemma writes_clipped W H cx cy scale :
  Forall (in_bounds W H) (Cursor.writes W H cx cy scale).
Proof.
  apply Forall_forall. intros w Hw. unfold Cursor.writes in Hw.
  apply in_flat_map in Hw. destruct Hw as [y [Hy Hw]].
  apply in_flat_map in Hw. destruct Hw as [x [Hx Hw]].
  apply Zrange_In in Hx, Hy. rewrite Int_max_spec, Int_min_spec in Hx, Hy.
  assert (E : write_pos w = (x, y)).
  { unfold Cursor.cell in Hw.
    destruct (Cpu.classify _ _); simpl in Hw; try contradiction;
      destruct Hw as [<- | []]; reflexivity. }
  unfold in_bounds. rewrite E. simpl. lia.
Qed.

Lemma run_painted W H ws :
  forall b, fits W H b -> Forall (in_bounds W H) ws ->
  exists b', Cursor.run ws b = Some b' /\ Size b' = Size b /\
    (forall p, ~ In p (map write_pos ws) ->
               px b' (fst p) (snd p) = px b (fst p) (snd p)) /\
    (NoDup (map write_pos ws) ->
     forall w, In w ws ->
               px b' (fst (write_pos w)) (snd (write_pos w)) = write_color w).
Proof.
  induction ws as [|w ws IH]; intros b Hfit HF.
  - exists b. simpl. repeat split; auto. intros _ w [].
  - inversion HF as [|? ? Hw HF']; subst.
    destruct w as [[x y] c]. unfold in_bounds in Hw. simpl in Hw.
    destruct Hfit as (EW & EH & HW & HH).
    pose proof (to_i32_le _ HW). pose proof (to_i32_le _ HH).
    pose proof (to_i32_max (Width b)). pose proof (to_i32_max (Height b)).
    unfold Int.int_max in *.
    simpl. unfold Buffer.put, to_uvec2. simpl.
    rewrite !to_u32_small by lia.
    destruct (Z.ltb_spec x (Width b)); [|lia].
    destruct (Z.ltb_spec y (Height b)); [|lia]. simpl.
    match goal with |- exists b', Cursor.run ws ?t = _ /\ _ => set (b1 := t) end.
    destruct (IH b1) as (b' & Hrun & Hsz & Hout & Hin).
    { unfold fits. repeat split; assumption. }
    { assumption. }
    exists b'. split; [exact Hrun|]. split; [exact Hsz|]. split.
    + intros p Hp. rewrite Hout by (intro; apply Hp; now right).
      subst b1. simpl.
      destruct (Z.eqb_spec (fst p) x); destruct (Z.eqb_spec (snd p) y);
        simpl; try reflexivity.
      exfalso. apply Hp. left. unfold write_pos. simpl. destruct p; simpl in *; congruence.
    + intros Hnd w Hw'. inversion Hnd as [|? ? Hfresh Hnd']; subst.
      destruct Hw' as [<- | Hw'].
      * unfold write_pos, write_color in *. simpl in *.
        pose proof (Hout (x, y) Hfresh) as E. simpl in E. rewrite E.
        subst b1. simpl. now rewrite !Z.eqb_refl.
      * apply Hin; assumption.
Qed.

Lemma DrawCursor_writes_clipped input config screenLayout size :
  Forall (in_bounds (Int.to_i32 (fst size)) (Int.to_i32 (snd size)))
         (DrawCursor_writes input config screenLayout size).
Proof.
  unfold DrawCursor_writes.
  destruct (layout_eqb (Layout screenLayout) TopOnly); [constructor|].
  destruct (Cursor.center input config screenLayout size) as [cx cy].
  apply writes_clipped.
Qed.

(** [DrawCursor] never indexes outside the buffer: it always returns. *)
Lemma DrawCursor_total input config screenLayout st :
  0 <= Width (buffer st) -> 0 <= Height (buffer st) ->
  exists b', DrawCursor input config screenLayout st = Some (with_buffer b' st) /\
             Size b' = Size (buffer st).
Proof.
  intros HW HH. unfold DrawCursor.
  destruct (run_painted (Int.to_i32 (Width (buffer st))) (Int.to_i32 (Height (buffer st)))
              (DrawCursor_writes input config screenLayout (Size (buffer st)))
              (buffer st)) as (b' & Hrun & Hsz & _).
  - unfold fits. auto.
  - apply DrawCursor_writes_clipped.
  - exists b'. rewrite Hrun. auto.
Qed.

(** C8: for every centre, every scale [>= 1] and every buffer size, each
    [set_px] call of [DrawCursor] has [0 <= x <= W - 1] and
    [0 <= y <= H - 1]; on a buffer the loop therefore never indexes out of
    bounds and [DrawCursor] returns. *)
Theorem DrawCursor_writes_in_bounds (W H cx cy scale : Z) :
  1 <= scale ->
  Forall (in_bounds W H) (Cursor.writes W H cx cy scale) /\
  (forall input config screenLayout st,
      Cursor.scale screenLayout = scale ->
      0 <= Width (buffer st) -> 0 <= Height (buffer st) ->
      Forall (fun w => 0 <= fst (write_pos w) <= Width (buffer st) - 1 /\
                       0 <= snd (write_pos w) <= Height (buffer st) - 1)
             (DrawCursor_writes input config screenLayout (Size (buffer st))) /\
      exists st', DrawCursor input config screenLayout st = Some st').
Proof.
  intros _. split; [apply writes_clipped|].
  intros input config screenLayout st _ HW HH. split.
  - pose proof (DrawCursor_writes_clipped input config screenLayout (Size (buffer st))) as HF.
    eapply Forall_impl; [|exact HF]. intros w [Hx Hy].
    pose proof (to_i32_le _ HW). pose proof (to_i32_le _ HH).
    unfold Width, Height in *. lia.
  - destruct (DrawCursor_total input config screenLayout st HW HH) as (b' & E & _).
    eauto.
Qed.

(** ** The footprint of the cursor *)

Lemma written_in_box cx cy s ws l :
  ws = flat_map (cell_at cx cy s) l ->
  forall p, written ws p = true <-> In p l /\ paints cx cy s p = true.
Proof.
  intros -> p. rewrite written_In, positions_filter. apply filter_In.
Qed.

Lemma written_false_iff ws p : written ws p = false <-> ~ In p (map write_pos ws).
Proof.
  rewrite <- written_In. destruct (written ws p); split; intros; congruence.
Qed.

(** The footprint of the two loops, for any centre: for every scale
    [s >= 1], with the scaled 5x5 box inside [W] by [H], they write each
    pixel at most once and colour exactly [21 s^2] pixels, [9 s^2] white
    and [12 s^2] black; the [4 s^2] pixels of the box left unwritten are
    those of the four corner cells, nothing outside the box is written,
    and in the buffer every unwritten pixel keeps its value while every
    written one holds its colour. *)
Lemma Cursor_writes_footprint (W H cx cy s : Z) :
  1 <= s ->
  0 <= cx - 2 * s -> cx + 2 * s + (s - 1) <= W - 1 ->
  0 <= cy - 2 * s -> cy + 2 * s + (s - 1) <= H - 1 ->
  let ws := Cursor.writes W H cx cy s in
  NoDup (map write_pos ws) /\
  Z.of_nat (length ws) = 21 * s * s /\
  Z.of_nat (count (has_color white) ws) = 9 * s * s /\
  Z.of_nat (count (has_color black) ws) = 12 * s * s /\
  (forall w, In w ws ->
     in_box cx cy s (write_pos w) /\
     ((write_color w = white /\ class_at cx cy s (write_pos w) = WhiteFill) \/
      (write_color w = black /\ class_at cx cy s (write_pos w) = BlackRing))) /\
  Z.of_nat (count (fun p => negb (written ws p)) (box_pixels cx cy s)) = 4 * s * s /\
  (forall p, in_box cx cy s p ->
     (written ws p = false <->
      Cpu.isCorner (fst (base_cell cx cy s p)) (snd (base_cell cx cy s p)) = true)) /\
  (forall p, ~ in_box cx cy s p -> written ws p = false) /\
  (forall b, fits W H b ->
     exists b', Cursor.run ws b = Some b' /\ Size b' = Size b /\
       (forall p, written ws p = false ->
                  px b' (fst p) (snd p) = px b (fst p) (snd p)) /\
       (forall w, In w ws ->
                  px b' (fst (write_pos w)) (snd (write_pos w)) = write_color w)).
Proof.
  intros Hs Hx0 Hx1 Hy0 Hy1 ws.
  assert (Ews : ws = flat_map (cell_at cx cy s) (box_pixels cx cy s))
    by (apply writes_unclipped; assumption).
  assert (Hpos : map write_pos ws = filter (paints cx cy s) (box_pixels cx cy s))
    by (rewrite Ews; apply positions_filter).
  assert (Hnd : NoDup (map write_pos ws)).
  { rewrite Hpos. apply NoDup_filter, cells_NoDup; apply Zrange_NoDup. }
  assert (Hwr : forall p, In p (box_pixels cx cy s) ->
                          written ws p = paints cx cy s p).
  { intros p Hp. pose proof (written_in_box cx cy s ws _ Ews p) as Hiff.
    destruct (written ws p), (paints cx cy s p); try reflexivity.
    - destruct (proj1 Hiff eq_refl) as [_ F]. discriminate.
    - pose proof (proj2 Hiff (conj Hp eq_refl)). discriminate. }
  assert (Hun : Z.of_nat (count (fun p => negb (written ws p)) (box_pixels cx cy s))
                = 4 * s * s).
  { rewrite (count_ext _ (fun p => negb (paints cx cy s p))).
    - now apply count_untouched_cells.
    - intros p Hp. now rewrite Hwr. }
  split; [exact Hnd|]. split; [|split; [|split; [|split; [|split; [|split; [|split]]]]]].
  - rewrite <- (length_map write_pos), Hpos. fold (count (paints cx cy s) (box_pixels cx cy s)).
    pose proof (count_negb (paints cx cy s) (box_pixels cx cy s)) as E.
    pose proof (count_untouched_cells cx cy s Hs) as U.
    unfold box_pixels in E at 3. rewrite cells_length, !Zrange_length in E. nia.
  - rewrite Ews, (count_color_cells cx cy s white WhiteFill) by auto.
    now apply count_white_cells.
  - rewrite Ews, (count_color_cells cx cy s black BlackRing) by auto.
    now apply count_black_cells.
  - intros w Hw. rewrite Ews in Hw. apply in_flat_map in Hw.
    destruct Hw as [p [Hp Hw]]. apply cell_at_color in Hw. destruct Hw as [-> Hc].
    split; [now apply box_pixels_In | exact Hc].
  - exact Hun.
  - intros p Hp. rewrite (Hwr p) by now apply box_pixels_In.
    unfold paints. rewrite (class_in_box cx cy s Hs p Hp).
    destruct Hp as [Hpx Hpy]. unfold Cpu.isCorner, base_cell. simpl.
    rewrite !(abs_floor_div_eq2 s Hs) by assumption.
    destruct (near s cx (fst p)), (near s cy (snd p)); simpl; split; congruence.
  - intros p Hp. destruct (written ws p) eqn:E; [|reflexivity].
    apply (written_in_box cx cy s ws _ Ews) in E. destruct E as [E _].
    apply box_pixels_In in E. contradiction.
  - intros b Hb.
    destruct (run_painted W H ws b Hb (writes_clipped W H cx cy s))
      as (b' & Hrun & Hsz & Hout & Hin).
    exists b'. split; [exact Hrun|]. split; [exact Hsz|]. split.
    + intros p Hp. apply Hout. now apply written_false_iff.
    + now apply Hin.
Qed.

Lemma DrawCursor_writes_in_bounds_witness :
  1 <= 3 /\ Forall (in_bounds 4 4) (Cursor.writes 4 4 0 0 3).
Proof.
  split; [lia|]. apply (DrawCursor_writes_in_bounds 4 4 0 0 3). lia.
Defined.

(** ** [CombineScreens] *)

Lemma run_call_size `{Platform} top bottom st c :
  Size (buffer (run_call top bottom st c)) = Size (buffer st).
Proof. destruct c; reflexivity. Qed.

Lemma run_calls_size `{Platform} top bottom calls :
  forall st, Size (buffer (fold_left (run_call top bottom) calls st)) = Size (buffer st).
Proof.
  induction calls as [|c calls IH]; intros st; [reflexivity|].
  simpl. now rewrite IH, run_call_size.
Qed.

Lemma CombineScreens_size `{Platform} top bottom screenLayout st :
  Size (buffer (CombineScreens top bottom screenLayout st)) = Size (buffer st).
Proof. apply run_calls_size. Qed.

(** The calls of the four hybrid layouts: after the clear and the
    magnified copy of the primary screen, mode [Both] copies the two
    un-magnified screens, mode [FocusedOnly] the companion only. *)
Lemma CombineScreens_calls_hybrid
  (screenLayout : ScreenLayoutData) (primary : Screen) :
  hybrid_primary (Layout screenLayout) = Some primary ->
  CombineScreens_calls screenLayout =
    [ CallClear;
      CallScale primary;
      CallCopyRows FromHybridBuffer (GetHybridScreenTranslation screenLayout)
                   (uvec_scale NDS_SCREEN_SIZE (HybridRatio screenLayout)) ]
    ++ match HybridSmallScreenLayout screenLayout with
       | Both => [ small_copy screenLayout TopScreen;
                   small_copy screenLayout BottomScreen ]
       | FocusedOnly => [ small_copy screenLayout (companion primary) ]
       end.
Proof.
  destruct screenLayout as [l sz ratio side tt bt ht m]. simpl.
  intros Hp. unfold CombineScreens_calls. simpl.
  destruct l; simpl in Hp; try discriminate; inversion Hp; subst;
    destruct side; reflexivity.
Qed.

(** C6: in the [TopOnly] layout, whatever the buffer held before, after
    [CombineScreens] every pixel outside the 256x192 rectangle at the top
    screen's translation is the clear value; the pixels of the rectangle
    at the bottom screen's translation that lie outside the top one are
    among them. *)
Theorem CombineScreens_TopOnly_rest_clear `{Platform}
  (topBuffer bottomBuffer : SourceImage) (screenLayout : ScreenLayoutData)
  (st : SoftwareRenderState) (x y : Z) :
  Layout screenLayout = TopOnly ->
  in_rect (GetTopScreenTranslation screenLayout) NDS_SCREEN_SIZE x y = false ->
  px (buffer (CombineScreens topBuffer bottomBuffer screenLayout st)) x y = clear_value.
Proof.
  intros HL Hout. unfold CombineScreens, CombineScreens_calls. rewrite HL. simpl.
  unfold Buffer.CopyDirect, Buffer.CopyRows. simpl.
  now rewrite Hout.
Qed.

Lemma CombineScreens_TopOnly_rest_clear_witness :
  Layout (Sample.layout TopOnly Both) = TopOnly /\
  in_rect (GetTopScreenTranslation (Sample.layout TopOnly Both)) NDS_SCREEN_SIZE 10 200
    = false /\
  px (buffer (@CombineScreens Sample.platform (FrontTop Sample.nds)
                (FrontBottom Sample.nds) (Sample.layout TopOnly Both) Sample.state))
     10 200 = 0.
Proof.
  split; [reflexivity|]. split; [reflexivity|].
  apply (@CombineScreens_TopOnly_rest_clear Sample.platform); reflexivity.
Defined.

(** ** [DrawCursor]: the guard and the scale *)

Lemma with_buffer_same st : with_buffer (buffer st) st = st.
Proof. now destruct st. Qed.

(** C10: in the [TopOnly] layout [DrawCursor] makes no [set_px] call and
    returns the render state as it was, for every input state (cursor
    visible or not); in [Render], with the lid open and the cursor
    visible, the frame is then the one [CombineScreens] left. *)
Theorem DrawCursor_TopOnly_noop `{Platform}
  (nds : NDS) (input : InputState) (config : CoreConfig)
  (screenLayout : ScreenLayoutData) (st : SoftwareRenderState) :
  Layout screenLayout = TopOnly ->
  DrawCursor_writes input config screenLayout (Size (buffer st)) = [] /\
  DrawCursor input config screenLayout st = Some st /\
  (IsLidClosed nds = false -> CursorVisible input = true ->
   composite nds input config screenLayout st =
   Some (CombineScreens (FrontTop nds) (FrontBottom nds) screenLayout
           (set_hybrid_size config screenLayout
              (with_buffer (Buffer.SetSize (BufferSize screenLayout) (buffer st)) st)))).
Proof.
  intros HL.
  assert (E : forall sz, DrawCursor_writes input config screenLayout sz = []).
  { intros sz. unfold DrawCursor_writes. now rewrite HL. }
  assert (D : forall s, DrawCursor input config screenLayout s = Some s).
  { intros s. unfold DrawCursor. rewrite E. simpl. now rewrite with_buffer_same. }
  split; [apply E|]. split; [apply D|].
  intros Hlid Hvis. unfold composite. rewrite Hlid, Hvis. simpl. apply D.
Qed.

Lemma DrawCursor_TopOnly_noop_witness :
  Layout (Sample.layout TopOnly Both) = TopOnly /\
  DrawCursor Sample.input Sample.config (Sample.layout TopOnly Both) Sample.state
  = Some Sample.state.
Proof.
  split; [reflexivity|].
  apply (@DrawCursor_TopOnly_noop Sample.platform Sample.nds Sample.input Sample.config
           (Sample.layout TopOnly Both) Sample.state).
  reflexivity.
Defined.

(** C5, as stated, fails: in [HybridBottom] the lower screen is the
    magnified one, the ratio is 2, and the cursor scale is 1. *)
Lemma cursor_scale_hybrid_bottom_counterexample :
  ~ (forall screenLayout,
        (lower_screen_magnified (Layout screenLayout) = true ->
         Cursor.scale screenLayout = HybridRatio screenLayout) /\
        (lower_screen_magnified (Layout screenLayout) = false ->
         Cursor.scale screenLayout = 1)).
Proof.
  intros Hc. destruct (Hc (Sample.layout HybridBottom Both)) as [Hm _].
  specialize (Hm eq_refl). discriminate Hm.
Qed.

(** C5, amended: the cursor scale is the layout's magnification ratio in
    [LargescreenBottom] and [FlippedLargescreenBottom], and 1 in every
    other layout, [HybridBottom] and [FlippedHybridBottom] included. *)
Theorem cursor_scale_largescreen_bottom_only (screenLayout : ScreenLayoutData) :
  Cursor.scale screenLayout =
    match Layout screenLayout with
    | LargescreenBottom | FlippedLargescreenBottom => HybridRatio screenLayout
    | _ => 1
    end.
Proof.
  unfold Cursor.scale. destruct (Layout screenLayout); reflexivity.
Qed.

(** ** [Render]: what reaches the presentation callback *)

Lemma set_hybrid_size_buffer config screenLayout st :
  buffer (set_hybrid_size config screenLayout st) = buffer st.
Proof.
  unfold set_hybrid_size.
  now destruct (IsHybridLayout (Layout screenLayout) || IsLargeScreenLayout (Layout screenLayout)).
Qed.

(** The composition always succeeds, on a buffer of the layout's size. *)
Lemma composite_total `{Platform} nds inputState config screenLayout st :
  0 <= fst (BufferSize screenLayout) -> 0 <= snd (BufferSize screenLayout) ->
  exists st', composite nds inputState config screenLayout st = Some st' /\
              Size (buffer st') = BufferSize screenLayout.
Proof.
  intros HW HH. unfold composite.
  set (st1 := CombineScreens _ _ _ _).
  assert (Hsz : Size (buffer st1) = BufferSize screenLayout).
  { subst st1. now rewrite CombineScreens_size, set_hybrid_size_buffer. }
  destruct (negb (IsLidClosed nds) && CursorVisible inputState).
  - destruct (DrawCursor_total inputState config screenLayout st1) as (b' & E & Hb').
    + unfold Width. now rewrite Hsz.
    + unfold Height. now rewrite Hsz.
    + exists (with_buffer b' st1). split; [exact E|]. simpl. congruence.
  - exists st1. now split.
Qed.

(** C9, as stated, fails: the sample frame's upper-left pixel is composed
    red, [0xFFFF0000], and is delivered red, not [0xFF0000FF]. *)
Lemma Render_delivers_swapped_counterexample :
  ~ @delivers_swapped Sample.platform Sample.nds Sample.input Sample.config
      (Sample.layout TopBottom Both) Sample.state.
Proof.
  intros Hc. specialize (Hc 0 0).
  assert (Hx : 0 <= 0 < fst (BufferSize (Sample.layout TopBottom Both)))
    by (simpl; lia).
  assert (Hy : 0 <= 0 < snd (BufferSize (Sample.layout TopBottom Both)))
    by (simpl; lia).
  specialize (Hc Hx Hy). vm_compute in Hc. discriminate Hc.
Qed.

(** C9, amended: [Render] hands the composited buffer to [video_refresh]
    as it is, in the channel order it was composed in, with the buffer's
    width, height and stride; the channel-swapped copy is made after that
    call, only in a build with Tracy and with a profiler attached, and
    goes to Tracy's [FrameImage]. *)
Theorem Render_delivers_composited `{Platform}
  (nds : NDS) (inputState : InputState) (config : CoreConfig)
  (screenLayout : ScreenLayoutData) (st : SoftwareRenderState) :
  0 <= fst (BufferSize screenLayout) -> 0 <= snd (BufferSize screenLayout) ->
  exists st',
    composite nds inputState config screenLayout st = Some st' /\
    Size (buffer st') = BufferSize screenLayout /\
    Render nds inputState config screenLayout st =
      Some (st',
            video_refresh (px (buffer st')) (Width (buffer st')) (Height (buffer st'))
                          (row_stride (Size (buffer st')))
            :: (if HAVE_TRACY && ProfilerAvailable
                then [ FrameImage (fun x y => conv_argb8888_abgr8888 (px (buffer st') x y))
                                  (Width (buffer st')) (Height (buffer st')) ]
                else [])) /\
    (forall x y,
        delivered_pixel (Render nds inputState config screenLayout st) x y
        = composited_pixel (composite nds inputState config screenLayout st) x y).
Proof.
  intros HW HH.
  destruct (composite_total nds inputState config screenLayout st HW HH)
    as (st' & E & Hsz).
  exists st'. split; [exact E|]. split; [exact Hsz|].
  unfold Render. rewrite E. split; reflexivity.
Qed.

Lemma Render_delivers_composited_witness :
  0 <= fst (BufferSize (Sample.layout TopBottom Both)) /\
  0 <= snd (BufferSize (Sample.layout TopBottom Both)) /\
  (forall x y,
      delivered_pixel (@Render Sample.platform Sample.nds Sample.input Sample.config
                         (Sample.layout TopBottom Both) Sample.state) x y
      = composited_pixel (@composite Sample.platform Sample.nds Sample.input
                            Sample.config (Sample.layout TopBottom Both) Sample.state)
                         x y).
Proof.
  assert (HW : 0 <= fst (BufferSize (Sample.layout TopBottom Both))) by (simpl; lia).
  assert (HH : 0 <= snd (BufferSize (Sample.layout TopBottom Both))) by (simpl; lia).
  split; [exact HW|]. split; [exact HH|].
  destruct (@Render_delivers_composited Sample.platform Sample.nds Sample.input
              Sample.config (Sample.layout TopBottom Both) Sample.state HW HH)
    as (st' & _ & _ & _ & Hd).
  exact Hd.
Defined.

(** ** The shader's box test *)

Lemma Shader_geb_true a b : Shader.geb a b = true <-> (b <= a)%Q.
Proof. unfold Shader.geb. apply Qle_bool_iff. Qed.

Lemma Shader_ltb_true a b : Shader.ltb a b = true <-> (a < b)%Q.
Proof.
  unfold Shader.ltb. rewrite negb_true_iff.
  split.
  - intros Hf. apply Qnot_le_lt. intros Hle.
    apply Qle_bool_iff in Hle. congruence.
  - intros Hlt. destruct (Qle_bool b a) eqn:E; [|reflexivity].
    apply Qle_bool_iff in E. exfalso. exact (Qlt_not_le _ _ Hlt E).
Qed.

Lemma Shader_ltb_false a b : (b <= a)%Q -> Shader.ltb a b = false.
Proof.
  intros Hle. destruct (Shader.ltb a b) eqn:E; [|reflexivity].
  apply Shader_ltb_true in E. exfalso. exact (Qlt_not_le _ _ E Hle).
Qed.

Lemma Shader_main_outside u tex f :
  Shader.inside (Shader.cursorPos u) f = false ->
  Shader.main u tex f = Shader.bgr1 (tex f).
Proof.
  intros Hout. unfold Shader.main. rewrite Hout.
  now destruct (Shader.cursorVisible u && Shader.geb (snd f) (1 # 2) && Shader.leb (snd f) 1).
Qed.

(** C7: the box test is half-open in both axes. A fragment on the left
    edge (and between top and bottom) or on the top edge (and between left
    and right) of a rectangle that is not empty is inside, and when the
    cursor is visible and the fragment in the lower half it is coloured
    by the class of its bucket; a fragment on the right or on the bottom
    edge is outside, and the shader outputs its sampled pixel, red and
    blue exchanged and alpha one, whatever the cursor. *)
Theorem Shader_inside_half_open (u : Shader.Uniforms)
  (ScreenTex : Q * Q -> Shader.vec4) (fx fy : Q) :
  let r := Shader.cursorPos u in
  ((fx == Shader.v_x r)%Q -> (Shader.v_x r < Shader.v_z r)%Q ->
   (Shader.v_y r <= fy)%Q -> (fy < Shader.v_w r)%Q ->
   Shader.inside r (fx, fy) = true) /\
  ((fy == Shader.v_y r)%Q -> (Shader.v_y r < Shader.v_w r)%Q ->
   (Shader.v_x r <= fx)%Q -> (fx < Shader.v_z r)%Q ->
   Shader.inside r (fx, fy) = true) /\
  ((fx == Shader.v_z r)%Q ->
   Shader.inside r (fx, fy) = false /\
   Shader.main u ScreenTex (fx, fy) = Shader.bgr1 (ScreenTex (fx, fy))) /\
  ((fy == Shader.v_w r)%Q ->
   Shader.inside r (fx, fy) = false /\
   Shader.main u ScreenTex (fx, fy) = Shader.bgr1 (ScreenTex (fx, fy))) /\
  (Shader.inside r (fx, fy) = true -> Shader.cursorVisible u = true ->
   (1 # 2 <= fy)%Q -> (fy <= 1)%Q ->
   Shader.main u ScreenTex (fx, fy) =
   Shader.bgr1
     match Frag.classify (Shader.bucket fx (Shader.v_x r) (Shader.v_z r))
                         (Shader.bucket fy (Shader.v_y r) (Shader.v_w r)) with
     | WhiteFill => Shader.set_rgb 1 (ScreenTex (fx, fy))
     | BlackRing => Shader.set_rgb 0 (ScreenTex (fx, fy))
     | Untouched => ScreenTex (fx, fy)
     end).
Proof.
  intros r. unfold Shader.inside. simpl.
  split; [|split; [|split; [|split]]].
  - intros E Hw Hy0 Hy1.
    rewrite (proj2 (Shader_geb_true fx (Shader.v_x r))) by (rewrite E; apply Qle_refl).
    rewrite (proj2 (Shader_ltb_true fx (Shader.v_z r))) by (rewrite E; exact Hw).
    rewrite (proj2 (Shader_geb_true fy (Shader.v_y r))) by exact Hy0.
    rewrite (proj2 (Shader_ltb_true fy (Shader.v_w r))) by exact Hy1.
    reflexivity.
  - intros E Hh Hx0 Hx1.
    rewrite (proj2 (Shader_geb_true fx (Shader.v_x r))) by exact Hx0.
    rewrite (proj2 (Shader_ltb_true fx (Shader.v_z r))) by exact Hx1.
    rewrite (proj2 (Shader_geb_true fy (Shader.v_y r))) by (rewrite E; apply Qle_refl).
    rewrite (proj2 (Shader_ltb_true fy (Shader.v_w r))) by (rewrite E; exact Hh).
    reflexivity.
  - intros E.
    assert (Hout : Shader.inside r (fx, fy) = false).
    { unfold Shader.inside. simpl.
      rewrite (Shader_ltb_false fx (Shader.v_z r)) by (rewrite E; apply Qle_refl).
      now rewrite andb_false_r. }
    split; [exact Hout | now apply Shader_main_outside].
  - intros E.
    assert (Hout : Shader.inside r (fx, fy) = false).
    { unfold Shader.inside. simpl.
      rewrite (Shader_ltb_false fy (Shader.v_w r)) by (rewrite E; apply Qle_refl).
      now rewrite andb_false_r. }
    split; [exact Hout | now apply Shader_main_outside].
  - intros Hin Hvis Hlo Hhi. unfold Shader.main, Shader.inside. simpl.
    fold r. rewrite Hin, Hvis.
    rewrite (proj2 (Shader_geb_true fy (1 # 2))) by exact Hlo.
    unfold Shader.leb. rewrite (proj2 (Qle_bool_iff fy 1)) by exact Hhi.
    simpl. now destruct (Frag.classify _ _).
Qed.

Lemma Shader_inside_half_open_witness :
  Shader.inside (Shader.cursorPos Sample.uniforms) (1 # 4, 5 # 8) = true /\
  Shader.inside (Shader.cursorPos Sample.uniforms) (3 # 4, 5 # 8) = false /\
  Shader.main Sample.uniforms Sample.texture (3 # 4, 5 # 8)
  = Shader.bgr1 (Sample.texture (3 # 4, 5 # 8)).
Proof.
  destruct (Shader_inside_half_open Sample.uniforms Sample.texture (1 # 4) (5 # 8))
    as (Hleft & _).
  destruct (Shader_inside_half_open Sample.uniforms Sample.texture (3 # 4) (5 # 8))
    as (_ & _ & Hright & _).
  split.
  - apply Hleft; simpl; try reflexivity; unfold Qlt, Qle; simpl; lia.
  - apply Hright. reflexivity.
Defined.

(** * Further properties of the code *)

(** ** [floor_div] and the bands of the pattern *)

(** X1: for an [int] dividend and a positive [int] divisor no step of
    [floor_div] overflows: quotient, remainder, the decremented quotient
    where it is formed, and the result are all within the [int] range. *)
Theorem floor_div_no_overflow (a b : Z) :
  Int.in_int a -> Int.in_int b -> 0 < b ->
  Int.in_int (Z.quot a b) /\ Int.in_int (Z.rem a b) /\
  (Z.rem a b <> 0 -> a < 0 -> Int.in_int (Z.quot a b - 1)) /\
  Int.in_int (Cpu.floor_div a b).
Proof.
  intros Ha Hb Hpos.
  destruct (floor_div_in_int a b Ha Hpos) as (Hq & Hdec & Hr).
  split; [exact Hq|]. split; [|split; assumption].
  pose proof (Z.rem_bound_abs a b ltac:(lia)).
  unfold Int.in_int, Int.int_min, Int.int_max in *. lia.
Qed.

Lemma floor_div_no_overflow_witness :
  Int.in_int (Cpu.floor_div (- 2 ^ 31) 1) /\ Int.in_int (Cpu.floor_div (-7) 2).
Proof.
  split.
  - apply (floor_div_no_overflow (- 2 ^ 31) 1); vm_compute; try split; discriminate.
  - apply (floor_div_no_overflow (-7) 2); vm_compute; try split; discriminate.
Defined.

(** X2: base cell [b] of an axis covers exactly the destination
    coordinates [c + b scale .. c + b scale + (scale - 1)], as the comment
    above the loop bounds says. *)
Theorem floor_div_band (c s x b : Z) :
  1 <= s ->
  (Cpu.floor_div (x - c) s = b <-> c + b * s <= x <= c + b * s + (s - 1)).
Proof.
  intros Hs. rewrite floor_div_is_div by lia.
  pose proof (Z.div_mod (x - c) s ltac:(lia)) as E.
  pose proof (Z.mod_pos_bound (x - c) s ltac:(lia)) as R.
  split.
  - intros <-. nia.
  - intros Hb. symmetry.
    apply (Z.div_unique (x - c) s b (x - c - b * s)); lia.
Qed.

Lemma floor_div_band_witness :
  1 <= 3 /\ (Cpu.floor_div (7 - 10) 3 = -1 <-> 10 + (-1) * 3 <= 7 <= 10 + (-1) * 3 + (3 - 1)).
Proof. split; [lia | apply (floor_div_band 10 3 7 (-1)); lia]. Defined.

Lemma floor_div_mirror s d : 1 <= s -> Cpu.floor_div (s - 1 - d) s = - Cpu.floor_div d s.
Proof.
  intros Hs. rewrite !floor_div_is_div by lia.
  pose proof (Z.div_mod d s ltac:(lia)) as E.
  pose proof (Z.mod_pos_bound d s ltac:(lia)) as R.
  symmetry. apply (Z.div_unique (s - 1 - d) s (- (d / s)) (s - 1 - d mod s)); lia.
Qed.

Lemma Int_abs_opp a : Int.abs (- a) = Int.abs a.
Proof. rewrite !Int_abs_spec. apply Z.abs_opp. Qed.

Lemma classify_opp_l bx by_ : Cpu.classify (- bx) by_ = Cpu.classify bx by_.
Proof.
  unfold Cpu.classify, Cpu.inWhite3x3, Cpu.inRing, Cpu.isCorner.
  now rewrite Int_abs_opp.
Qed.

Lemma classify_opp_r bx by_ : Cpu.classify bx (- by_) = Cpu.classify bx by_.
Proof.
  unfold Cpu.classify, Cpu.inWhite3x3, Cpu.inRing, Cpu.isCorner.
  now rewrite Int_abs_opp.
Qed.

Lemma classify_transpose bx by_ : Cpu.classify bx by_ = Cpu.classify by_ bx.
Proof.
  unfold Cpu.classify, Cpu.inWhite3x3, Cpu.inRing, Cpu.isCorner.
  destruct (Int.abs bx <=? 1), (Int.abs bx =? 2),
    (Int.abs by_ <=? 1), (Int.abs by_ =? 2); reflexivity.
Qed.

(** X3: floor division makes the scaled pattern symmetric. Mirroring an
    offset within the box negates its base cell, so the class of a pixel
    is that of its mirror image in either axis of the box, and of its
    transpose. *)
Theorem cursor_pattern_symmetric (cx cy s x y : Z) :
  1 <= s ->
  Cpu.floor_div (s - 1 - (x - cx)) s = - Cpu.floor_div (x - cx) s /\
  class_at cx cy s (2 * cx + (s - 1) - x, y) = class_at cx cy s (x, y) /\
  class_at cx cy s (x, 2 * cy + (s - 1) - y) = class_at cx cy s (x, y) /\
  class_at cx cy s (x, y) = class_at cy cx s (y, x).
Proof.
  intros Hs. split; [now apply floor_div_mirror|].
  unfold class_at, base_cell. cbn [fst snd]. split; [|split].
  - replace (2 * cx + (s - 1) - x - cx) with (s - 1 - (x - cx)) by lia.
    rewrite floor_div_mirror by lia. apply classify_opp_l.
  - replace (2 * cy + (s - 1) - y - cy) with (s - 1 - (y - cy)) by lia.
    rewrite floor_div_mirror by lia. apply classify_opp_r.
  - apply classify_transpose.
Qed.

Lemma cursor_pattern_symmetric_witness :
  1 <= 3 /\
  class_at 10 20 3 (2 * 10 + (3 - 1) - 4, 21) = class_at 10 20 3 (4, 21).
Proof.
  split; [lia|].
  destruct (cursor_pattern_symmetric 10 20 3 4 21 ltac:(lia)) as (_ & Hm & _).
  exact Hm.
Defined.

(** X4: every pixel the two loops visit has a base cell in [-2 .. 2] on
    both axes, as the comments at lines 191-192 say: the final [else] of
    the body is reached at corner cells only. *)
Theorem loop_visits_base_cells (W H cx cy s x y : Z) :
  1 <= s ->
  In x (Zrange (Int.max 0 (cx - 2 * s)) (Int.min (W - 1) (cx + 2 * s + (s - 1)))) ->
  In y (Zrange (Int.max 0 (cy - 2 * s)) (Int.min (H - 1) (cy + 2 * s + (s - 1)))) ->
  (-2 <= Cpu.floor_div (x - cx) s <= 2 /\ -2 <= Cpu.floor_div (y - cy) s <= 2) /\
  (Cursor.cell cx cy s x y = [] <->
   Cpu.isCorner (Cpu.floor_div (x - cx) s) (Cpu.floor_div (y - cy) s) = true).
Proof.
  intros Hs Hx Hy. apply Zrange_In in Hx, Hy.
  rewrite Int_max_spec, Int_min_spec in Hx, Hy.
  assert (Hbox : in_box cx cy s (x, y)) by (unfold in_box; cbn [fst snd]; lia).
  split; [exact (base_cell_range cx cy s Hs (x, y) Hbox)|].
  pose proof (class_in_box cx cy s Hs (x, y) Hbox) as Hc.
  unfold class_at, base_cell in Hc. cbn [fst snd] in Hc.
  unfold Cursor.cell, Cpu.isCorner. rewrite Hc.
  destruct Hbox as [Bx By]. cbn [fst snd] in Bx, By.
  rewrite !(abs_floor_div_eq2 s Hs) by assumption.
  destruct (near s cx x), (near s cy y); simpl; split; congruence.
Qed.

Lemma loop_visits_base_cells_witness :
  1 <= 2 /\
  (-2 <= Cpu.floor_div (0 - 1) 2 <= 2 /\ -2 <= Cpu.floor_div (3 - 5) 2 <= 2).
Proof.
  split; [lia|].
  apply (loop_visits_base_cells 4 20 1 5 2 0 3); [lia | |];
    apply Zrange_In; vm_compute; split; discriminate.
Defined.

Lemma floor_div_cell s i a : 1 <= s -> 0 <= a < s -> Cpu.floor_div (i * s + a) s = i.
Proof.
  intros Hs Ha. rewrite floor_div_is_div by lia.
  symmetry. apply (Z.div_unique (i * s + a) s i a); lia.
Qed.

(** X9: the scaled cursor is the base pattern with every cell blown up to
    [scale] by [scale] pixels: pixel [a, b] of the block of base cell
    [(i, j)] has the class the unscaled pattern gives cell [(i, j)]. *)
Theorem cursor_scales_base_pattern (cx cy s i j a b : Z) :
  1 <= s -> 0 <= a < s -> 0 <= b < s ->
  class_at cx cy s (cx + i * s + a, cy + j * s + b) = Cpu.classify i j /\
  class_at 0 0 1 (i, j) = Cpu.classify i j.
Proof.
  intros Hs Ha Hb. unfold class_at, base_cell. cbn [fst snd].
  replace (cx + i * s + a - cx) with (i * s + a) by lia.
  replace (cy + j * s + b - cy) with (j * s + b) by lia.
  rewrite !floor_div_cell by lia.
  replace (i - 0) with (i * 1 + 0) by lia.
  replace (j - 0) with (j * 1 + 0) by lia.
  rewrite !floor_div_cell by lia. now split.
Qed.

Lemma cursor_scales_base_pattern_witness :
  class_at 10 20 3 (10 + (-2) * 3 + 1, 20 + 1 * 3 + 2) = Cpu.classify (-2) 1.
Proof.
  apply (cursor_scales_base_pattern 10 20 3 (-2) 1 1 2); lia.
Defined.

(** ** The clipped cursor *)

Lemma writes_positions W H cx cy s :
  map write_pos (Cursor.writes W H cx cy s)
  = filter (paints cx cy s)
      (cells (Zrange (Int.max 0 (cx - 2 * s)) (Int.min (W - 1) (cx + 2 * s + (s - 1))))
             (Zrange (Int.max 0 (cy - 2 * s)) (Int.min (H - 1) (cy + 2 * s + (s - 1))))).
Proof.
  unfold Cursor.writes.
  rewrite (nested_loop_cells (Cursor.cell cx cy s)).
  apply (positions_filter cx cy s).
Qed.

Lemma writes_in_box W H cx cy s p :
  In p (map write_pos (Cursor.writes W H cx cy s)) -> in_box cx cy s p.
Proof.
  rewrite writes_positions. intros Hp. apply filter_In in Hp. destruct Hp as [Hp _].
  apply cells_In in Hp. rewrite !Zrange_In, !Int_max_spec, !Int_min_spec in Hp.
  unfold in_box. lia.
Qed.

(** X5: clipping cuts the pattern and does not distort it. For every
    centre, buffer size and scale [>= 1], a [set_px] call is made exactly
    for the pixels that are inside the buffer, inside the scaled box, and
    of class white fill (written white) or black ring (written black). *)
Theorem writes_characterised (W H cx cy s : Z) (w : PxWrite) :
  1 <= s ->
  (In w (Cursor.writes W H cx cy s) <->
   in_bounds W H w /\ in_box cx cy s (write_pos w) /\
   ((write_color w = white /\ class_at cx cy s (write_pos w) = WhiteFill) \/
    (write_color w = black /\ class_at cx cy s (write_pos w) = BlackRing))).
Proof.
  intros _. split.
  - intros Hw. split; [|split].
    + pose proof (writes_clipped W H cx cy s) as HF.
      rewrite Forall_forall in HF. now apply HF.
    + apply (writes_in_box W H). now apply in_map.
    + unfold Cursor.writes in Hw.
      rewrite (nested_loop_cells (Cursor.cell cx cy s)) in Hw.
      apply in_flat_map in Hw. destruct Hw as [p [_ Hw]].
      apply (cell_at_color cx cy s p w) in Hw. destruct Hw as [-> Hc]. exact Hc.
  - intros (Hb & Hbox & Hc). destruct w as [[x y] c].
    unfold in_bounds, in_box, write_pos, write_color, class_at, base_cell in *.
    cbn [fst snd] in *.
    unfold Cursor.writes. apply in_flat_map. exists y. split.
    { apply Zrange_In. rewrite Int_max_spec, Int_min_spec. lia. }
    apply in_flat_map. exists x. split.
    { apply Zrange_In. rewrite Int_max_spec, Int_min_spec. lia. }
    unfold Cursor.cell.
    destruct Hc as [[-> ->] | [-> ->]]; now left.
Qed.

Lemma writes_characterised_witness :
  1 <= 2 /\
  (In (0, 3, black) (Cursor.writes 4 20 1 5 2) <->
   in_bounds 4 20 (0, 3, black) /\ in_box 1 5 2 (write_pos (0, 3, black)) /\
   ((write_color (0, 3, black) = white /\
     class_at 1 5 2 (write_pos (0, 3, black)) = WhiteFill) \/
    (write_color (0, 3, black) = black /\
     class_at 1 5 2 (write_pos (0, 3, black)) = BlackRing))).
Proof. split; [lia | apply (writes_characterised 4 20 1 5 2 (0, 3, black)); lia]. Defined.

Lemma count_painted_cells cx cy s :
  1 <= s ->
  Z.of_nat (length (filter (paints cx cy s) (box_pixels cx cy s))) = 21 * s * s.
Proof.
  intros Hs. fold (count (paints cx cy s) (box_pixels cx cy s)).
  pose proof (count_negb (paints cx cy s) (box_pixels cx cy s)) as E.
  pose proof (count_untouched_cells cx cy s Hs) as U.
  unfold box_pixels in E at 3. rewrite cells_length, !Zrange_length in E. nia.
Qed.

Lemma writes_at_most W H cx cy s :
  1 <= s ->
  NoDup (map write_pos (Cursor.writes W H cx cy s)) /\
  Z.of_nat (length (Cursor.writes W H cx cy s)) <= 21 * s * s.
Proof.
  intros Hs.
  assert (Hnd : NoDup (map write_pos (Cursor.writes W H cx cy s))).
  { rewrite writes_positions. apply NoDup_filter, cells_NoDup; apply Zrange_NoDup. }
  split; [exact Hnd|].
  rewrite <- (count_painted_cells cx cy s Hs), <- (length_map write_pos).
  apply Nat2Z.inj_le. apply NoDup_incl_length; [exact Hnd|].
  intros p Hp. apply filter_In. split.
  - apply box_pixels_In. now apply (writes_in_box W H).
  - rewrite writes_positions in Hp. apply filter_In in Hp. tauto.
Qed.

(** X6: wherever the touch point is and whatever the configured cursor
    size, [DrawCursor] writes no pixel twice and at most [21 scale^2]
    pixels. *)
Theorem DrawCursor_writes_at_most (input : InputState) (config : CoreConfig)
  (screenLayout : ScreenLayoutData) (size : uvec2) :
  1 <= Cursor.scale screenLayout ->
  NoDup (map write_pos (DrawCursor_writes input config screenLayout size)) /\
  Z.of_nat (length (DrawCursor_writes input config screenLayout size))
  <= 21 * Cursor.scale screenLayout * Cursor.scale screenLayout.
Proof.
  intros Hs. unfold DrawCursor_writes.
  destruct (layout_eqb (Layout screenLayout) TopOnly).
  - split; [apply NoDup_nil | cbn [length Z.of_nat]; nia].
  - destruct (Cursor.center input config screenLayout size) as [cx cy].
    now apply writes_at_most.
Qed.

Lemma DrawCursor_writes_at_most_witness :
  1 <= Cursor.scale (Sample.layout LargescreenBottom Both) /\
  Z.of_nat (length (DrawCursor_writes Sample.input Sample.config
                      (Sample.layout LargescreenBottom Both) (256, 384)))
  <= 21 * Cursor.scale (Sample.layout LargescreenBottom Both)
        * Cursor.scale (Sample.layout LargescreenBottom Both).
Proof.
  assert (Hs : 1 <= Cursor.scale (Sample.layout LargescreenBottom Both))
    by (vm_compute; discriminate).
  split; [exact Hs|].
  apply (DrawCursor_writes_at_most Sample.input Sample.config
           (Sample.layout LargescreenBottom Both) (256, 384) Hs).
Defined.

(** ** The centre of the cursor *)

Lemma to_i32_small z : Int.int_min <= z <= Int.int_max -> Int.to_i32 z = z.
Proof.
  unfold Int.int_min, Int.int_max, Int.to_i32. intros Hz.
  rewrite Z.mod_small; lia.
Qed.

(** On a buffer whose extent fits an [int], the centre along one axis is
    the midpoint of the two clamped ends. *)
Lemma center_axis t cs W :
  0 <= W <= Int.int_max ->
  Int.to_i32
    (Int.to_u32 (Int.to_u32 (Int.clamp (t - cs) 0 (Int.to_i32 W))
                 + Int.to_u32 (Int.clamp (t + cs) 0 (Int.to_i32 W))) / 2)
  = (Int.clamp (t - cs) 0 W + Int.clamp (t + cs) 0 W) / 2.
Proof.
  intros HW. unfold Int.int_max, Int.int_min in *.
  rewrite (to_i32_small W) by (unfold Int.int_min, Int.int_max; lia).
  pose proof (Int_clamp_bounds (t - cs) 0 W ltac:(lia)) as B1.
  pose proof (Int_clamp_bounds (t + cs) 0 W ltac:(lia)) as B2.
  rewrite (to_u32_small (Int.clamp (t - cs) 0 W)) by lia.
  rewrite (to_u32_small (Int.clamp (t + cs) 0 W)) by lia.
  rewrite (to_u32_small (Int.clamp (t - cs) 0 W + Int.clamp (t + cs) 0 W)) by lia.
  apply to_i32_small. unfold Int.int_min, Int.int_max.
  split.
  - transitivity 0; [lia|]. apply Z.div_pos; lia.
  - apply Z.div_le_upper_bound; lia.
Qed.

Lemma center_formula input config screenLayout size :
  0 <= fst size <= Int.int_max -> 0 <= snd size <= Int.int_max ->
  Cursor.center input config screenLayout size =
  ((Int.clamp (fst (transformed_touch input screenLayout) - CursorSize config) 0 (fst size)
    + Int.clamp (fst (transformed_touch input screenLayout) + CursorSize config) 0 (fst size)) / 2,
   (Int.clamp (snd (transformed_touch input screenLayout) - CursorSize config) 0 (snd size)
    + Int.clamp (snd (transformed_touch input screenLayout) + CursorSize config) 0 (snd size)) / 2).
Proof.
  intros HW HH. unfold Cursor.center, transformed_touch.
  unfold to_uvec2, vec_clamp, vec_sub, vec_add, to_ivec2. cbn [fst snd].
  now rewrite (center_axis _ _ (fst size) HW), (center_axis _ _ (snd size) HH).
Qed.

(** X7: on a buffer whose extents fit an [int], the centre of the pattern
    lies between 0 and the buffer's extent on each axis (the extent
    itself included), wherever the touch point is mapped. *)
Theorem center_in_buffer (input : InputState) (config : CoreConfig)
  (screenLayout : ScreenLayoutData) (size : uvec2) :
  0 <= fst size <= Int.int_max -> 0 <= snd size <= Int.int_max ->
  0 <= fst (Cursor.center input config screenLayout size) <= fst size /\
  0 <= snd (Cursor.center input config screenLayout size) <= snd size.
Proof.
  intros HW HH. rewrite center_formula by assumption. cbn [fst snd].
  set (t := transformed_touch input screenLayout). set (cs := CursorSize config).
  pose proof (Int_clamp_bounds (fst t - cs) 0 (fst size) ltac:(lia)).
  pose proof (Int_clamp_bounds (fst t + cs) 0 (fst size) ltac:(lia)).
  pose proof (Int_clamp_bounds (snd t - cs) 0 (snd size) ltac:(lia)).
  pose proof (Int_clamp_bounds (snd t + cs) 0 (snd size) ltac:(lia)).
  repeat split.
  - apply Z.div_pos; lia.
  - apply Z.div_le_upper_bound; lia.
  - apply Z.div_pos; lia.
  - apply Z.div_le_upper_bound; lia.
Qed.

Lemma center_in_buffer_witness :
  (0 <= fst (256, 384) <= Int.int_max) /\ (0 <= snd (256, 384) <= Int.int_max) /\
  0 <= fst (Cursor.center Sample.input Sample.config
              (Sample.layout TopBottom Both) (256, 384)) <= fst (256, 384).
Proof.
  assert (HW : 0 <= fst (256, 384) <= Int.int_max) by (vm_compute; split; discriminate).
  assert (HH : 0 <= snd (256, 384) <= Int.int_max) by (vm_compute; split; discriminate).
  split; [exact HW|]. split; [exact HH|].
  apply (center_in_buffer Sample.input Sample.config
           (Sample.layout TopBottom Both) (256, 384) HW HH).
Defined.

Lemma clamp_inside x lo hi : lo <= x <= hi -> Int.clamp x lo hi = x.
Proof. intros Hx. unfold Int.clamp. rewrite Int_min_spec, Int_max_spec. lia. Qed.

(** X8: the configured cursor size only enters through the clamped ends
    of lines 148-149. When the square of that half-size around the
    transformed touch point lies in the buffer, the pattern is centred on
    the transformed touch point exactly. *)
Theorem center_is_touch (input : InputState) (config : CoreConfig)
  (screenLayout : ScreenLayoutData) (size : uvec2) :
  0 <= fst size <= Int.int_max -> 0 <= snd size <= Int.int_max ->
  0 <= CursorSize config ->
  CursorSize config <= fst (transformed_touch input screenLayout)
    <= fst size - CursorSize config ->
  CursorSize config <= snd (transformed_touch input screenLayout)
    <= snd size - CursorSize config ->
  Cursor.center input config screenLayout size = transformed_touch input screenLayout.
Proof.
  intros HW HH Hcs Hx Hy. rewrite center_formula by assumption.
  set (t := transformed_touch input screenLayout) in *.
  set (cs := CursorSize config) in *.
  rewrite !clamp_inside by lia.
  replace (fst t - cs + (fst t + cs)) with (fst t * 2) by lia.
  replace (snd t - cs + (snd t + cs)) with (snd t * 2) by lia.
  rewrite !Z.div_mul by lia. now destruct t.
Qed.

Lemma center_is_touch_witness :
  Cursor.center Sample.input Sample.config (Sample.layout TopBottom Both) (256, 384)
  = transformed_touch Sample.input (Sample.layout TopBottom Both).
Proof.
  apply (center_is_touch Sample.input Sample.config
           (Sample.layout TopBottom Both) (256, 384));
    vm_compute; try split; discriminate.
Defined.

(** ** [CombineScreens] in the other layouts *)

(** X11: in a layout that is neither hybrid nor large-screen the combined
    frame is fully determined, pixel by pixel: the bottom screen where its
    rectangle is (unless the layout is [TopOnly]), else the top screen
    where its rectangle is (unless the layout is [BottomOnly]), else the
    clear value. The bottom screen is drawn over the top one, and nothing
    of the buffer's previous content survives. *)
Theorem CombineScreens_simple_pixels `{Platform}
  (topBuffer bottomBuffer : SourceImage) (screenLayout : ScreenLayoutData)
  (st : SoftwareRenderState) (x y : Z) :
  IsHybridLayout (Layout screenLayout) = false ->
  IsLargeScreenLayout (Layout screenLayout) = false ->
  px (buffer (CombineScreens topBuffer bottomBuffer screenLayout st)) x y =
    if negb (layout_eqb (Layout screenLayout) TopOnly) &&
       in_rect (GetBottomScreenTranslation screenLayout) NDS_SCREEN_SIZE x y
    then span_image bottomBuffer
           (x - fst (GetBottomScreenTranslation screenLayout))
           (y - snd (GetBottomScreenTranslation screenLayout))
    else if negb (layout_eqb (Layout screenLayout) BottomOnly) &&
            in_rect (GetTopScreenTranslation screenLayout) NDS_SCREEN_SIZE x y
    then span_image topBuffer
           (x - fst (GetTopScreenTranslation screenLayout))
           (y - snd (GetTopScreenTranslation screenLayout))
    else clear_value.
Proof.
  destruct screenLayout as [l sz ratio side tt bt ht m]. cbn [Layout
    GetBottomScreenTranslation GetTopScreenTranslation].
  intros Hh Hl. unfold CombineScreens, CombineScreens_calls. cbn [Layout
    GetBottomScreenTranslation GetTopScreenTranslation].
  rewrite Hh, Hl.
  destruct l; try discriminate Hh; try discriminate Hl;
    cbn [layout_eqb layout_tag Z.eqb negb andb app fold_left CopyScreen
         LayoutSupportsDirectCopy run_call with_buffer buffer
         Buffer.CopyDirect Buffer.CopyRows px Pos.eqb source_image screen_image];
    try reflexivity;
    destruct (in_rect bt NDS_SCREEN_SIZE x y); reflexivity.
Qed.

Lemma CombineScreens_simple_pixels_witness :
  px (buffer (@CombineScreens Sample.platform (FrontTop Sample.nds)
                (FrontBottom Sample.nds) (Sample.layout TopBottom Both) Sample.state))
     10 200
  = span_image (FrontBottom Sample.nds) (10 - 0) (200 - 192).
Proof.
  apply (@CombineScreens_simple_pixels Sample.platform (FrontTop Sample.nds)
           (FrontBottom Sample.nds) (Sample.layout TopBottom Both) Sample.state 10 200);
    reflexivity.
Defined.

(** ** What [Render] leaves in the render state and in the frame *)

Lemma run_call_scaler `{Platform} top bottom st c :
  hybridScaler (run_call top bottom st c) = hybridScaler st /\
  Size (hybridBuffer (run_call top bottom st c)) = Size (hybridBuffer st).
Proof. destruct c; split; reflexivity. Qed.

Lemma run_calls_scaler `{Platform} top bottom calls :
  forall st,
    hybridScaler (fold_left (run_call top bottom) calls st) = hybridScaler st /\
    Size (hybridBuffer (fold_left (run_call top bottom) calls st))
    = Size (hybridBuffer st).
Proof.
  induction calls as [|c calls IH]; intros st; [now split|].
  simpl. destruct (IH (run_call top bottom st c)) as [E1 E2].
  destruct (run_call_scaler top bottom st c) as [F1 F2].
  split; congruence.
Qed.

(** Without a [Scale] call the hybrid buffer is not touched. *)
Lemma run_calls_no_scale `{Platform} top bottom calls :
  (forall s, ~ In (CallScale s) calls) ->
  forall st, hybridBuffer (fold_left (run_call top bottom) calls st) = hybridBuffer st.
Proof.
  induction calls as [|c calls IH]; intros Hno st; [reflexivity|].
  simpl. rewrite IH by (intros s Hs; apply (Hno s); now right).
  destruct c; try reflexivity.
  exfalso. apply (Hno src). now left.
Qed.

Lemma simple_layout_no_scale screenLayout :
  IsHybridLayout (Layout screenLayout) = false ->
  IsLargeScreenLayout (Layout screenLayout) = false ->
  forall s, ~ In (CallScale s) (CombineScreens_calls screenLayout).
Proof.
  intros Hh Hl s. unfold CombineScreens_calls. rewrite Hh, Hl.
  unfold CopyScreen.
  destruct (negb (layout_eqb (Layout screenLayout) BottomOnly));
    destruct (negb (layout_eqb (Layout screenLayout) TopOnly));
    destruct (LayoutSupportsDirectCopy (Layout screenLayout));
    simpl; intros Hin;
    repeat (destruct Hin as [Hin | Hin]; [discriminate Hin|]); exact Hin.
Qed.

(** The shape of a composition: it returns the combined state with only
    the output buffer repainted, by [DrawCursor]'s writes. *)
Lemma composite_shape `{Platform} nds input config screenLayout st :
  0 <= fst (BufferSize screenLayout) -> 0 <= snd (BufferSize screenLayout) ->
  exists b',
    composite nds input config screenLayout st
    = Some (with_buffer b' (combined nds config screenLayout st)) /\
    Size b' = BufferSize screenLayout /\
    (forall p,
        ~ In p (map write_pos
                  (DrawCursor_writes input config screenLayout (BufferSize screenLayout))) ->
        px b' (fst p) (snd p)
        = px (buffer (combined nds config screenLayout st)) (fst p) (snd p)) /\
    (IsLidClosed nds = true \/ CursorVisible input = false ->
     b' = buffer (combined nds config screenLayout st)).
Proof.
  intros HW HH. unfold composite. fold (combined nds config screenLayout st).
  set (st1 := combined nds config screenLayout st).
  assert (Hsz : Size (buffer st1) = BufferSize screenLayout).
  { subst st1. unfold combined. now rewrite CombineScreens_size, set_hybrid_size_buffer. }
  destruct (negb (IsLidClosed nds) && CursorVisible input) eqn:Hdraw.
  - unfold DrawCursor. rewrite Hsz.
    destruct (run_painted (Int.to_i32 (fst (BufferSize screenLayout)))
                (Int.to_i32 (snd (BufferSize screenLayout)))
                (DrawCursor_writes input config screenLayout (BufferSize screenLayout))
                (buffer st1)) as (b' & Hrun & Hb' & Hout & _).
    + unfold fits, Width, Height. rewrite Hsz. auto.
    + apply DrawCursor_writes_clipped.
    + exists b'. rewrite Hrun. split; [reflexivity|]. split; [congruence|].
      split; [exact Hout|].
      intros [Hlid | Hvis]; [rewrite Hlid in Hdraw | rewrite Hvis in Hdraw];
        simpl in Hdraw; try discriminate Hdraw.
      now rewrite andb_false_r in Hdraw.
  - exists (buffer st1). rewrite with_buffer_same.
    split; [reflexivity|]. split; [exact Hsz|]. split; auto.
Qed.

(** X12: the cursor overlay changes nothing of the frame outside the
    scaled box around the cursor's centre: there every pixel of the
    composited frame is the one [CombineScreens] produced. With the lid
    closed or the cursor not visible the frame is [CombineScreens]'s,
    everywhere. *)
Theorem Render_cursor_only_in_box `{Platform}
  (nds : NDS) (input : InputState) (config : CoreConfig)
  (screenLayout : ScreenLayoutData) (st : SoftwareRenderState) :
  0 <= fst (BufferSize screenLayout) -> 0 <= snd (BufferSize screenLayout) ->
  exists st',
    composite nds input config screenLayout st = Some st' /\
    (forall x y,
        ~ in_box (fst (Cursor.center input config screenLayout (BufferSize screenLayout)))
                 (snd (Cursor.center input config screenLayout (BufferSize screenLayout)))
                 (Cursor.scale screenLayout) (x, y) ->
        px (buffer st') x y = px (buffer (combined nds config screenLayout st)) x y) /\
    (IsLidClosed nds = true \/ CursorVisible input = false ->
     st' = combined nds config screenLayout st).
Proof.
  intros HW HH.
  destruct (composite_shape nds input config screenLayout st HW HH)
    as (b' & E & _ & Hout & Hoff).
  exists (with_buffer b' (combined nds config screenLayout st)).
  split; [exact E|]. split.
  - intros x y Hbox. simpl. apply (Hout (x, y)).
    intros Hin. apply Hbox. unfold DrawCursor_writes in Hin.
    destruct (layout_eqb (Layout screenLayout) TopOnly); [contradiction|].
    destruct (Cursor.center input config screenLayout (BufferSize screenLayout))
      as [cx cy].
    now apply writes_in_box in Hin.
  - intros Hno. rewrite (Hoff Hno). apply with_buffer_same.
Qed.

Lemma Render_cursor_only_in_box_witness :
  exists st',
    @composite Sample.platform Sample.nds Sample.input Sample.config
      (Sample.layout TopBottom Both) Sample.state = Some st' /\
    (~ in_box (fst (Cursor.center Sample.input Sample.config
                      (Sample.layout TopBottom Both)
                      (BufferSize (Sample.layout TopBottom Both))))
              (snd (Cursor.center Sample.input Sample.config
                      (Sample.layout TopBottom Both)
                      (BufferSize (Sample.layout TopBottom Both))))
              (Cursor.scale (Sample.layout TopBottom Both)) (0, 0) ->
     px (buffer st') 0 0
     = px (buffer (@combined Sample.platform Sample.nds Sample.config
                     (Sample.layout TopBottom Both) Sample.state)) 0 0).
Proof.
  destruct (@Render_cursor_only_in_box Sample.platform Sample.nds Sample.input
              Sample.config (Sample.layout TopBottom Both) Sample.state)
    as (st' & E & Hout & _); [vm_compute; discriminate | vm_compute; discriminate |].
  exists st'. split; [exact E | apply Hout].
Defined.

(** X13: what [Render] does to the scaler and the hybrid buffer. In a
    hybrid or large-screen layout the hybrid buffer's size and the
    scaler's output size both become 256 by 192 times the ratio and the
    scaler's type follows the configured filter; in every other layout
    the hybrid buffer and the scaler are left exactly as they were. *)
Theorem Render_hybrid_state `{Platform}
  (nds : NDS) (input : InputState) (config : CoreConfig)
  (screenLayout : ScreenLayoutData) (st : SoftwareRenderState) :
  0 <= fst (BufferSize screenLayout) -> 0 <= snd (BufferSize screenLayout) ->
  exists st',
    composite nds input config screenLayout st = Some st' /\
    (IsHybridLayout (Layout screenLayout) || IsLargeScreenLayout (Layout screenLayout) = true ->
     Size (hybridBuffer st') = uvec_scale NDS_SCREEN_SIZE (HybridRatio screenLayout) /\
     out_size (hybridScaler st') = uvec_scale NDS_SCREEN_SIZE (HybridRatio screenLayout) /\
     scaler_type (hybridScaler st') =
       match GetScreenFilter config with
       | Nearest => SCALER_TYPE_POINT
       | Linear => SCALER_TYPE_BILINEAR
       end) /\
    (IsHybridLayout (Layout screenLayout) || IsLargeScreenLayout (Layout screenLayout) = false ->
     hybridBuffer st' = hybridBuffer st /\ hybridScaler st' = hybridScaler st).
Proof.
  intros HW HH.
  destruct (composite_shape nds input config screenLayout st HW HH) as (b' & E & _).
  exists (with_buffer b' (combined nds config screenLayout st)).
  split; [exact E|]. cbn [with_buffer hybridBuffer hybridScaler].
  unfold combined, CombineScreens.
  match goal with
  | |- context [fold_left ?f ?calls ?s0] =>
      destruct (run_calls_scaler (FrontTop nds) (FrontBottom nds) calls s0) as [Es Eb]
  end.
  split.
  - intros Hmag. rewrite Es, Eb. unfold set_hybrid_size. rewrite Hmag.
    repeat split; reflexivity.
  - intros Hmag. apply orb_false_iff in Hmag. destruct Hmag as [Hh Hl].
    rewrite Es.
    rewrite run_calls_no_scale by (now apply simple_layout_no_scale).
    unfold set_hybrid_size. rewrite Hh, Hl. split; reflexivity.
Qed.

Lemma Render_hybrid_state_witness :
  exists st',
    @composite Sample.platform Sample.nds Sample.input Sample.config
      (Sample.layout HybridBottom FocusedOnly) Sample.state = Some st' /\
    Size (hybridBuffer st') = (512, 384).
Proof.
  destruct (@Render_hybrid_state Sample.platform Sample.nds Sample.input
              Sample.config (Sample.layout HybridBottom FocusedOnly) Sample.state)
    as (st' & E & Hmag & _); [vm_compute; discriminate | vm_compute; discriminate |].
  exists st'. split; [exact E|]. apply Hmag. reflexivity.
Defined.

(** ** The shader outside the cursor, and its buckets *)

Lemma Shader_geb_false a b : (a < b)%Q -> Shader.geb a b = false.
Proof.
  intros Hlt. unfold Shader.geb. destruct (Qle_bool b a) eqn:E; [|reflexivity].
  apply Qle_bool_iff in E. exfalso. exact (Qlt_not_le _ _ Hlt E).
Qed.

Lemma Shader_leb_false a b : (b < a)%Q -> Shader.leb a b = false.
Proof.
  intros Hlt. unfold Shader.leb. destruct (Qle_bool a b) eqn:E; [|reflexivity].
  apply Qle_bool_iff in E. exfalso. exact (Qlt_not_le _ _ Hlt E).
Qed.

(** X15: the shader draws the cursor in the lower half of the texture
    only. A fragment above [y = 0.5] or below [y = 1], or any fragment
    while the cursor is not visible, comes out as its sampled pixel with
    red and blue exchanged, even inside the cursor rectangle; and the
    output's alpha is one for every fragment. *)
Theorem Shader_main_lower_half_only (u : Shader.Uniforms)
  (ScreenTex : Q * Q -> Shader.vec4) (fx fy : Q) :
  ((fy < 1 # 2)%Q \/ (1 < fy)%Q \/ Shader.cursorVisible u = false ->
   Shader.main u ScreenTex (fx, fy) = Shader.bgr1 (ScreenTex (fx, fy))) /\
  Shader.v_w (Shader.main u ScreenTex (fx, fy)) = 1%Q.
Proof.
  split; [|reflexivity].
  intros Hout. unfold Shader.main. cbn [fst snd].
  destruct Hout as [Hup | [Hdown | Hvis]].
  - rewrite (Shader_geb_false fy (1 # 2) Hup). now rewrite andb_false_r.
  - rewrite (Shader_leb_false fy 1 Hdown). now rewrite andb_false_r.
  - now rewrite Hvis.
Qed.

Lemma Shader_main_lower_half_only_witness :
  Shader.main Sample.uniforms Sample.texture (1 # 2, 1 # 4)
  = Shader.bgr1 (Sample.texture (1 # 2, 1 # 4)).
Proof.
  destruct (Shader_main_lower_half_only Sample.uniforms Sample.texture (1 # 2) (1 # 4))
    as [Hout _].
  apply Hout. left. reflexivity.
Defined.

Lemma frag_cpu_on_grid bx by_ :
  0 <= bx <= 4 -> 0 <= by_ <= 4 ->
  Frag.classify bx by_ = Cpu.classify (bx - 2) (by_ - 2).
Proof.
  intros Hx Hy.
  assert (Ex : bx = 0 \/ bx = 1 \/ bx = 2 \/ bx = 3 \/ bx = 4) by lia.
  assert (Ey : by_ = 0 \/ by_ = 1 \/ by_ = 2 \/ by_ = 3 \/ by_ = 4) by lia.
  destruct Ex as [-> | [-> | [-> | [-> | ->]]]];
    destruct Ey as [-> | [-> | [-> | [-> | ->]]]]; reflexivity.
Qed.

(** X16: the final [clamp(.., 0, 4)] keeps both buckets within [0 .. 4]
    for every fragment and every rectangle, empty or inverted ones
    included; so the class the shader gives a fragment is always the CPU
    class of one of the 25 base cells, the cell (bucket - 2). *)
Theorem Shader_bucket_in_grid (r : Shader.vec4) (fx fy : Q) :
  let bx := Shader.bucket fx (Shader.v_x r) (Shader.v_z r) in
  let by_ := Shader.bucket fy (Shader.v_y r) (Shader.v_w r) in
  (0 <= bx <= 4 /\ 0 <= by_ <= 4) /\
  Frag.classify bx by_ = Cpu.classify (bx - 2) (by_ - 2).
Proof.
  intros bx by_.
  assert (Hx : 0 <= bx <= 4) by (apply Int_clamp_bounds; lia).
  assert (Hy : 0 <= by_ <= 4) by (apply Int_clamp_bounds; lia).
  split; [now split | now apply frag_cpu_on_grid].
Qed.

(** ** [DrawCursor] as a whole: the footprint on the buffer *)

Lemma layout_eqb_eq a b : layout_eqb a b = true <-> a = b.
Proof.
  destruct a, b; unfold layout_eqb; simpl; split; intro E;
    try reflexivity; discriminate E.
Qed.

(** When the layout is not [TopOnly], [DrawCursor]'s calls are those of
    the loops at its own centre, scale and buffer extents. *)
Lemma DrawCursor_writes_eq input config screenLayout size cx cy :
  Layout screenLayout <> TopOnly ->
  Cursor.center input config screenLayout size = (cx, cy) ->
  DrawCursor_writes input config screenLayout size
  = Cursor.writes (Int.to_i32 (fst size)) (Int.to_i32 (snd size)) cx cy
                  (Cursor.scale screenLayout).
Proof.
  intros HL Hc. unfold DrawCursor_writes.
  destruct (layout_eqb (Layout screenLayout) TopOnly) eqn:E.
  - apply layout_eqb_eq in E. contradiction.
  - now rewrite Hc.
Qed.

(** C2: in every layout in which [DrawCursor] draws (all but [TopOnly],
    where it returns at once), for every scale [s >= 1] the layout gives,
    with the scaled 5x5 box around the cursor's centre inside the output
    buffer: [DrawCursor] writes no pixel twice and colours exactly
    [21 s^2] pixels, [9 s^2] opaque white (those of the inner 3x3 base
    cells) and [12 s^2] opaque black (those of the ring cells); the
    [4 s^2] pixels of the box it does not write are those of the four
    corner cells and it writes nothing outside the box; it returns, and in
    the buffer it leaves every pixel it did not write holds its old value
    and every written one its colour. At [s = 1]: 9 white, 12 black and 4
    corner pixels left alone in a 5x5 box. *)
Theorem DrawCursor_footprint (input : InputState) (config : CoreConfig)
  (screenLayout : ScreenLayoutData) (st : SoftwareRenderState) (cx cy s : Z) :
  Layout screenLayout <> TopOnly ->
  Cursor.scale screenLayout = s ->
  Cursor.center input config screenLayout (Size (buffer st)) = (cx, cy) ->
  1 <= s ->
  Width (buffer st) <= Int.int_max -> Height (buffer st) <= Int.int_max ->
  0 <= cx - 2 * s -> cx + 2 * s + (s - 1) <= Width (buffer st) - 1 ->
  0 <= cy - 2 * s -> cy + 2 * s + (s - 1) <= Height (buffer st) - 1 ->
  let ws := DrawCursor_writes input config screenLayout (Size (buffer st)) in
  NoDup (map write_pos ws) /\
  Z.of_nat (length ws) = 21 * s * s /\
  Z.of_nat (count (has_color white) ws) = 9 * s * s /\
  Z.of_nat (count (has_color black) ws) = 12 * s * s /\
  (forall w, In w ws ->
     in_box cx cy s (write_pos w) /\
     ((write_color w = white /\ class_at cx cy s (write_pos w) = WhiteFill) \/
      (write_color w = black /\ class_at cx cy s (write_pos w) = BlackRing))) /\
  Z.of_nat (count (fun p => negb (written ws p)) (box_pixels cx cy s)) = 4 * s * s /\
  (forall p, in_box cx cy s p ->
     (written ws p = false <->
      Cpu.isCorner (fst (base_cell cx cy s p)) (snd (base_cell cx cy s p)) = true)) /\
  (forall p, ~ in_box cx cy s p -> written ws p = false) /\
  exists st',
    DrawCursor input config screenLayout st = Some st' /\
    Size (buffer st') = Size (buffer st) /\
    hybridBuffer st' = hybridBuffer st /\
    hybridScaler st' = hybridScaler st /\
    (forall p, written ws p = false ->
               px (buffer st') (fst p) (snd p) = px (buffer st) (fst p) (snd p)) /\
    (forall w, In w ws ->
               px (buffer st') (fst (write_pos w)) (snd (write_pos w)) = write_color w).
Proof.
  intros HL Hs Hc Hs1 HWmax HHmax Hx0 Hx1 Hy0 Hy1 ws.
  assert (HW : 0 <= Width (buffer st)) by lia.
  assert (HH : 0 <= Height (buffer st)) by lia.
  assert (EW : Int.to_i32 (Width (buffer st)) = Width (buffer st))
    by (apply to_i32_small; unfold Int.int_min, Int.int_max in *; lia).
  assert (EH : Int.to_i32 (Height (buffer st)) = Height (buffer st))
    by (apply to_i32_small; unfold Int.int_min, Int.int_max in *; lia).
  assert (Ews : ws = Cursor.writes (Width (buffer st)) (Height (buffer st)) cx cy s).
  { subst ws. rewrite (DrawCursor_writes_eq input config screenLayout _ cx cy HL Hc).
    fold (Width (buffer st)). fold (Height (buffer st)). now rewrite EW, EH, Hs. }
  destruct (Cursor_writes_footprint (Width (buffer st)) (Height (buffer st)) cx cy s
              Hs1 Hx0 Hx1 Hy0 Hy1)
    as (Hnd & Hlen & Hwh & Hbl & Hcls & Hun & Hcorner & Hout & Hrun).
  rewrite <- Ews in Hnd, Hlen, Hwh, Hbl, Hcls, Hun, Hcorner, Hout, Hrun.
  repeat (split; [assumption|]).
  destruct (Hrun (buffer st)) as (b' & Er & Hsz & Hkeep & Hcol).
  { unfold fits. rewrite EW, EH. auto. }
  exists (with_buffer b' st). unfold DrawCursor. fold ws. rewrite Er.
  repeat split; assumption.
Qed.

Lemma DrawCursor_footprint_witness :
  (let ws := DrawCursor_writes Sample.input Sample.config
               (Sample.layout LargescreenBottom Both) (256, 384) in
   Z.of_nat (length ws) = 21 * 2 * 2 /\
   Z.of_nat (count (has_color white) ws) = 9 * 2 * 2 /\
   Z.of_nat (count (has_color black) ws) = 12 * 2 * 2 /\
   Z.of_nat (count (fun p => negb (written ws p)) (box_pixels 128 288 2)) = 4 * 2 * 2) /\
  (let ws := DrawCursor_writes Sample.input Sample.config
               (Sample.layout TopBottom Both) (256, 384) in
   Z.of_nat (length ws) = 21 * 1 * 1 /\
   Z.of_nat (count (has_color white) ws) = 9 * 1 * 1 /\
   Z.of_nat (count (has_color black) ws) = 12 * 1 * 1 /\
   Z.of_nat (count (fun p => negb (written ws p)) (box_pixels 128 288 1)) = 4 * 1 * 1).
Proof.
  assert (HW : Width (buffer sample_frame_state) <= Int.int_max)
    by (vm_compute; discriminate).
  assert (HH : Height (buffer sample_frame_state) <= Int.int_max)
    by (vm_compute; discriminate).
  assert (L2 : Layout (Sample.layout LargescreenBottom Both) <> TopOnly) by discriminate.
  assert (L1 : Layout (Sample.layout TopBottom Both) <> TopOnly) by discriminate.
  assert (X2 : 128 + 2 * 2 + (2 - 1) <= Width (buffer sample_frame_state) - 1)
    by (vm_compute; discriminate).
  assert (Y2 : 288 + 2 * 2 + (2 - 1) <= Height (buffer sample_frame_state) - 1)
    by (vm_compute; discriminate).
  assert (X1 : 128 + 2 * 1 + (1 - 1) <= Width (buffer sample_frame_state) - 1)
    by (vm_compute; discriminate).
  assert (Y1 : 288 + 2 * 1 + (1 - 1) <= Height (buffer sample_frame_state) - 1)
    by (vm_compute; discriminate).
  split.
  - destruct (DrawCursor_footprint Sample.input Sample.config
                (Sample.layout LargescreenBottom Both) sample_frame_state 128 288 2
                L2 eq_refl eq_refl ltac:(lia) HW HH ltac:(lia) X2 ltac:(lia) Y2)
      as (_ & L & Wh & Bl & _ & Un & _).
    split; [exact L|]. split; [exact Wh|]. split; [exact Bl | exact Un].
  - destruct (DrawCursor_footprint Sample.input Sample.config
                (Sample.layout TopBottom Both) sample_frame_state 128 288 1
                L1 eq_refl eq_refl ltac:(lia) HW HH ltac:(lia) X1 ltac:(lia) Y1)
      as (_ & L & Wh & Bl & _ & Un & _).
    split; [exact L|]. split; [exact Wh|]. split; [exact Bl | exact Un].
Defined.

(** ** [CombineScreens] in the magnified layouts: the frame *)

(** C4: in the four hybrid layouts, on a render state whose hybrid buffer
    and scaler have the size [Render] gives them, [CombineScreens] clears,
    scales the primary screen and copies it magnified, and then with mode
    [Both] copies both un-magnified screens at their own translations, and
    with mode [FocusedOnly] exactly one un-magnified screen, the
    companion of the primary (the bottom screen when the primary is the
    top, the top screen when it is the bottom). The frame it leaves is,
    pixel by pixel, those copies over the magnified primary over the
    clear value. *)
Theorem CombineScreens_hybrid_side_screens `{Platform}
  (topBuffer bottomBuffer : SourceImage) (screenLayout : ScreenLayoutData)
  (st : SoftwareRenderState) (primary : Screen) :
  hybrid_primary (Layout screenLayout) = Some primary ->
  Size (hybridBuffer st) = uvec_scale NDS_SCREEN_SIZE (HybridRatio screenLayout) ->
  out_size (hybridScaler st) = uvec_scale NDS_SCREEN_SIZE (HybridRatio screenLayout) ->
  CombineScreens_calls screenLayout =
    [ CallClear;
      CallScale primary;
      CallCopyRows FromHybridBuffer (GetHybridScreenTranslation screenLayout)
                   (uvec_scale NDS_SCREEN_SIZE (HybridRatio screenLayout)) ]
    ++ match HybridSmallScreenLayout screenLayout with
       | Both => [ small_copy screenLayout TopScreen;
                   small_copy screenLayout BottomScreen ]
       | FocusedOnly => [ small_copy screenLayout (companion primary) ]
       end /\
  forall x y,
    px (buffer (CombineScreens topBuffer bottomBuffer screenLayout st)) x y =
    let magnified :=
      magnified_at topBuffer bottomBuffer screenLayout st primary
                   (GetHybridScreenTranslation screenLayout) x y in
    match HybridSmallScreenLayout screenLayout with
    | Both =>
        small_screen_over topBuffer bottomBuffer screenLayout BottomScreen
          (small_screen_over topBuffer bottomBuffer screenLayout TopScreen
             magnified x y) x y
    | FocusedOnly =>
        small_screen_over topBuffer bottomBuffer screenLayout (companion primary)
          magnified x y
    end.
Proof.
  intros Hp _ Hout. split; [now apply CombineScreens_calls_hybrid|].
  intros x y. unfold CombineScreens.
  rewrite (CombineScreens_calls_hybrid screenLayout primary Hp).
  unfold magnified_at, small_screen_over, small_copy. rewrite <- Hout.
  destruct (HybridSmallScreenLayout screenLayout); destruct primary; reflexivity.
Qed.

Lemma CombineScreens_hybrid_side_screens_witness :
  let sl := Sample.layout FlippedHybridBottom FocusedOnly in
  let st := set_hybrid_size Sample.config sl Sample.state in
  px (buffer (@CombineScreens Sample.platform (FrontTop Sample.nds)
                (FrontBottom Sample.nds) sl st)) 10 10 = Sample.red /\
  px (buffer (@CombineScreens Sample.platform (FrontTop Sample.nds)
                (FrontBottom Sample.nds) sl st)) 300 100 = Sample.green /\
  px (buffer (@CombineScreens Sample.platform (FrontTop Sample.nds)
                (FrontBottom Sample.nds) sl st)) 600 100 = 0.
Proof.
  intros sl st.
  destruct (@CombineScreens_hybrid_side_screens Sample.platform (FrontTop Sample.nds)
              (FrontBottom Sample.nds) sl st BottomScreen eq_refl eq_refl eq_refl)
    as [_ Hpx].
  rewrite !Hpx. vm_compute. repeat split; reflexivity.
Defined.

(** X10: in the four large-screen layouts, on a render state whose hybrid
    buffer and scaler have the size [Render] gives them, the frame
    [CombineScreens] leaves is, pixel by pixel: the other screen
    un-magnified in its rectangle, over the focused screen magnified at
    the focused screen's own translation (not the hybrid one), over the
    clear value; the side-screen mode plays no part. *)
Theorem CombineScreens_largescreen `{Platform}
  (topBuffer bottomBuffer : SourceImage) (screenLayout : ScreenLayoutData)
  (st : SoftwareRenderState) (primary : Screen) (x y : Z) :
  largescreen_primary (Layout screenLayout) = Some primary ->
  Size (hybridBuffer st) = uvec_scale NDS_SCREEN_SIZE (HybridRatio screenLayout) ->
  out_size (hybridScaler st) = uvec_scale NDS_SCREEN_SIZE (HybridRatio screenLayout) ->
  px (buffer (CombineScreens topBuffer bottomBuffer screenLayout st)) x y =
  small_screen_over topBuffer bottomBuffer screenLayout (companion primary)
    (magnified_at topBuffer bottomBuffer screenLayout st primary
                  (screen_translation screenLayout primary) x y) x y.
Proof.
  intros Hp _ Hout.
  destruct screenLayout as [l sz ratio side tt bt ht m].
  cbn [Layout HybridRatio] in *.
  unfold CombineScreens, CombineScreens_calls, magnified_at, small_screen_over.
  destruct l; try discriminate Hp; inversion Hp; subst primary;
    cbn [Layout HybridRatio GetTopScreenTranslation GetBottomScreenTranslation
         screen_translation companion];
    rewrite <- Hout; reflexivity.
Qed.

Lemma CombineScreens_largescreen_witness :
  let sl := Sample.layout FlippedLargescreenBottom FocusedOnly in
  let st := set_hybrid_size Sample.config sl Sample.state in
  px (buffer (@CombineScreens Sample.platform (FrontTop Sample.nds)
                (FrontBottom Sample.nds) sl st)) 10 10 = Sample.red /\
  px (buffer (@CombineScreens Sample.platform (FrontTop Sample.nds)
                (FrontBottom Sample.nds) sl st)) 300 300 = Sample.green.
Proof.
  intros sl st. split.
  - rewrite (@CombineScreens_largescreen Sample.platform (FrontTop Sample.nds)
               (FrontBottom Sample.nds) sl st BottomScreen 10 10 eq_refl eq_refl eq_refl).
    vm_compute. reflexivity.
  - rewrite (@CombineScreens_largescreen Sample.platform (FrontTop Sample.nds)
               (FrontBottom Sample.nds) sl st BottomScreen 300 300 eq_refl eq_refl eq_refl).
    vm_compute. reflexivity.
Defined.
